(** * Commoditized amounts and the commodity pool (amount.h, commodity.h)

    A shallow embedding of the inline code of [amount.h] and [commodity.h]:
    amounts are records holding an optional quantity and a commodity
    pointer; commodities, their shared bases and the pools live in an
    explicit store indexed by addresses, so that aliasing between a
    commodity and its annotated variants is visible. *)

From Stdlib Require Import ZArith Lia Bool.
From Stdlib Require Import Strings.String.
From stdpp Require Import base option list gmap strings fin_maps.

Local Open Scope Z_scope.

(** ** Outcomes

    A call either returns, throws an [amount_error], or has no defined
    behaviour (a null or dangling pointer is dereferenced, an [assert]
    fails, or the recursion never ends). *)

Inductive amount_error : Set :=
| ParseError
| IncompatibleCommodities
| DivideByZero
| PrecisionLoss
| NotConvertible
| UnknownCommodity
| InvalidState.

Inductive res (A : Type) : Type :=
| Ret (a : A)
| Throw (e : amount_error)
| Fault.

Arguments Ret {A} a.
Arguments Throw {A} e.
Arguments Fault {A}.

#[global] Instance res_ret : MRet res := fun A a => Ret a.
#[global] Instance res_bind : MBind res := fun A B f m =>
  match m with
  | Ret a => f a
  | Throw e => Throw e
  | Fault => Fault
  end.

#[global] Instance res_fmap : FMap res := fun A B f m =>
  match m with
  | Ret a => Ret (f a)
  | Throw e => Throw e
  | Fault => Fault
  end.

Definition returns {A} (m : res A) : Prop := exists a, m = Ret a.

(** ** Pointers and the data of amount.h *)

Definition addr := positive.

(** [T *]: [None] is the null pointer. *)
Definition ptr_t := option addr.

Definition deref {A} (m : gmap addr A) (p : ptr_t) : res A :=
  match p with
  | None => Fault
  | Some a => match m !! a with Some x => Ret x | None => Fault end
  end.

(** [*p] bound to a reference: the address of a live object. *)
Definition ref_of {A} (m : gmap addr A) (p : ptr_t) : res addr :=
  match p with
  | None => Fault
  | Some a => match m !! a with Some _ => Ret a | None => Fault end
  end.

(** Modelled from the spec: [amount_t::bigint_t] is only declared in
    amount.h.  The spec's BigRational is a signed numerator with a
    non-negative decimal scale, denoting [val / 10 ^ prec]. *)
Record bigint_t : Set := mk_bigint { val : Z; prec : N }.

Record amount_t : Set := mk_amount {
  quantity : option bigint_t;
  commodity_ : ptr_t
}.

#[global] Instance bigint_eq_dec : EqDecision bigint_t.
Proof. solve_decision. Defined.
#[global] Instance amount_eq_dec : EqDecision amount_t.
Proof. solve_decision. Defined.

(** [amount_t()] *)
Definition amount_ctor0 : amount_t := mk_amount None None.

(** Modelled from the spec: [_copy] is declared in amount.h and defined
    elsewhere; amount.h documents that both the value and the commodity
    are copied, and the spec that cloning a quantity is always valid. *)
Definition _copy (amt : amount_t) : amount_t :=
  mk_amount (quantity amt) (commodity_ amt).

(** [amount_t(const amount_t& amt)]: an amount without a quantity is
    copied as the null amount, whatever its commodity pointer. *)
Definition copy_ctor (amt : amount_t) : amount_t :=
  match quantity amt with
  | Some _ => _copy amt
  | None => mk_amount None None
  end.

(** An [optional<amount_t>] passed or returned by value: the amount it
    holds is copy-constructed. *)
Definition copy_optional (o : option amount_t) : option amount_t :=
  copy_ctor <$> o.

Definition moment_t := Z.

Definition AMOUNT_PARSE_NO_MIGRATE : Z := 0x01.
Definition AMOUNT_PARSE_NO_REDUCE : Z := 0x02.

(** ** commodity.h *)

Definition COMMODITY_STYLE_DEFAULTS : Z := 0x0000.
Definition COMMODITY_STYLE_SUFFIXED : Z := 0x0001.
Definition COMMODITY_STYLE_SEPARATED : Z := 0x0002.
Definition COMMODITY_STYLE_EUROPEAN : Z := 0x0004.
Definition COMMODITY_STYLE_THOUSANDS : Z := 0x0008.
Definition COMMODITY_STYLE_NOMARKET : Z := 0x0010.
Definition COMMODITY_STYLE_BUILTIN : Z := 0x0020.

(** Conversion to [uint_least8_t] ([flags_t]). *)
Definition to_flags_t (z : Z) : Z := z mod 256.

Module commodity_base_t.

Record history_t : Type := mk_history {
  prices : gmap Z amount_t;
  last_lookup : moment_t
}.

Record t : Type := mk {
  flags : Z;
  symbol : string;
  precision : N;
  name : option string;
  note : option string;
  history : option history_t;
  smaller : option amount_t;
  larger : option amount_t
}.

(** The copy of a [history_t]: the map is copied entry by entry, each
    price by the copy constructor of [amount_t]. *)
Definition copy_history (h : history_t) : history_t :=
  mk_history (copy_ctor <$> prices h) (last_lookup h).

Definition ctor0 : t :=
  mk COMMODITY_STYLE_DEFAULTS EmptyString 0%N None None None None None.

Definition ctor (_symbol : string) (_precision : N) (_flags : Z) : t :=
  mk (to_flags_t _flags) _symbol _precision None None None None None.

Definition with_flags (v : Z) (b : t) : t :=
  mk v (symbol b) (precision b) (name b) (note b) (history b) (smaller b) (larger b).
Definition with_precision (v : N) (b : t) : t :=
  mk (flags b) (symbol b) v (name b) (note b) (history b) (smaller b) (larger b).
Definition with_name (v : option string) (b : t) : t :=
  mk (flags b) (symbol b) (precision b) v (note b) (history b) (smaller b) (larger b).
Definition with_note (v : option string) (b : t) : t :=
  mk (flags b) (symbol b) (precision b) (name b) v (history b) (smaller b) (larger b).
Definition with_smaller (v : option amount_t) (b : t) : t :=
  mk (flags b) (symbol b) (precision b) (name b) (note b) (history b) v (larger b).
Definition with_larger (v : option amount_t) (b : t) : t :=
  mk (flags b) (symbol b) (precision b) (name b) (note b) (history b) (smaller b) v.

End commodity_base_t.

Module annotation_t.

Record t : Set := mk {
  price : option amount_t;
  date : option moment_t;
  tag : option string
}.

Definition ctor0 : t := mk None None None.

#[global] Instance eq_dec : EqDecision t.
Proof. solve_decision. Defined.

(** The implicit copy constructor: member by member, the price by the
    copy constructor of [amount_t]. *)
Definition copy (d : t) : t := mk (copy_optional (price d)) (date d) (tag d).

(** The details that are kept under the three toggles. *)
Definition keep (_keep_price _keep_date _keep_tag : bool) (d : t) : t :=
  mk (if _keep_price then price d else None)
     (if _keep_date then date d else None)
     (if _keep_tag then tag d else None).

(** [operator bool] *)
Definition to_bool (d : t) : bool :=
  bool_decide (is_Some (price d)) || bool_decide (is_Some (date d))
  || bool_decide (is_Some (tag d)).

End annotation_t.

(** The members of [commodity_t]; an [annotated_commodity_t] carries them
    (it derives from [commodity_t]) next to [ptr] and [details].  [ident]
    is not initialised by the constructors: [None] until it is assigned. *)
Record commodity_fields : Set := mk_commodity {
  base : ptr_t;
  parent_ : ptr_t;
  ident : option N;
  qualified_symbol : option string;
  mapping_key_ : option string;
  annotated : bool
}.

Record annotated_fields : Set := mk_annotated {
  super : commodity_fields;
  ptr : ptr_t;
  details : annotation_t.t
}.

(** The dynamic type of an object a [commodity_t *] points to. *)
Inductive commodity_obj : Set :=
| Plain (c : commodity_fields)
| Annotated (a : annotated_fields).

Definition fields (o : commodity_obj) : commodity_fields :=
  match o with
  | Plain c => c
  | Annotated a => super a
  end.

Module commodity_pool_t.

(** The [get_quote] signal is modelled on its own below; [commodities]
    keeps the pointers the pool holds. *)
Record t : Set := mk {
  commodities : list addr;
  null_commodity : ptr_t;
  default_commodity : ptr_t
}.

End commodity_pool_t.

(** The store: every [commodity_base_t], [commodity_t] and
    [commodity_pool_t] object alive, and the static members
    [default_pool], [keep_price], [keep_date] and [keep_tag] of
    [amount_t]. *)
Record state : Type := mk_state {
  bases : gmap addr commodity_base_t.t;
  objects : gmap addr commodity_obj;
  pools : gmap addr commodity_pool_t.t;
  default_pool : ptr_t;
  keep_price : bool;
  keep_date : bool;
  keep_tag : bool
}.

Definition set_bases (f : gmap addr commodity_base_t.t -> gmap addr commodity_base_t.t)
    (s : state) : state :=
  mk_state (f (bases s)) (objects s) (pools s) (default_pool s)
           (keep_price s) (keep_date s) (keep_tag s).

Definition set_objects (f : gmap addr commodity_obj -> gmap addr commodity_obj)
    (s : state) : state :=
  mk_state (bases s) (f (objects s)) (pools s) (default_pool s)
           (keep_price s) (keep_date s) (keep_tag s).

Definition set_pools (f : gmap addr commodity_pool_t.t -> gmap addr commodity_pool_t.t)
    (s : state) : state :=
  mk_state (bases s) (objects s) (f (pools s)) (default_pool s)
           (keep_price s) (keep_date s) (keep_tag s).

(** [amount_t::keep_price = ...], [keep_date] and [keep_tag] likewise. *)
Definition set_keep (_keep_price _keep_date _keep_tag : bool) (s : state) : state :=
  mk_state (bases s) (objects s) (pools s) (default_pool s)
           _keep_price _keep_date _keep_tag.

Module commodity_t.

(** [commodity_t(_parent, _base)] *)
Definition ctor (_parent : ptr_t) (_base : ptr_t) : commodity_fields :=
  mk_commodity _base _parent None None None false.

Definition this_fields (s : state) (this : addr) : res commodity_fields :=
  fields <$> deref (objects s) (Some this).

(** [parent()]: [*parent_] *)
Definition parent (s : state) (this : addr) : res addr :=
  c ← this_fields s this; ref_of (pools s) (parent_ c).

(** [base->]: the address and the contents of the shared base. *)
Definition base_of (s : state) (this : addr) : res (addr * commodity_base_t.t) :=
  c ← this_fields s this;
  a ← ref_of (bases s) (base c);
  b ← deref (bases s) (Some a);
  Ret (a, b).

Definition get {A} (f : commodity_base_t.t -> A) (s : state) (this : addr) : res A :=
  ab ← base_of s this; Ret (f ab.2).

(** [base->field = ...]: the store changes at the base's address. *)
Definition update (f : commodity_base_t.t -> commodity_base_t.t)
    (s : state) (this : addr) : res state :=
  ab ← base_of s this; Ret (set_bases <[ab.1 := f ab.2]> s).

Definition base_symbol := get commodity_base_t.symbol.

Definition symbol (s : state) (this : addr) : res string :=
  c ← this_fields s this;
  match qualified_symbol c with
  | Some q => Ret q
  | None => base_symbol s this
  end.

Definition mapping_key (s : state) (this : addr) : res string :=
  c ← this_fields s this;
  match mapping_key_ c with
  | Some k => Ret k
  | None => base_symbol s this
  end.

Definition name := get commodity_base_t.name.
Definition set_name (s : state) (this : addr) (arg : option string) : res state :=
  update (commodity_base_t.with_name arg) s this.

Definition note := get commodity_base_t.note.
Definition set_note (s : state) (this : addr) (arg : option string) : res state :=
  update (commodity_base_t.with_note arg) s this.

Definition precision := get commodity_base_t.precision.
Definition set_precision (s : state) (this : addr) (arg : N) : res state :=
  update (commodity_base_t.with_precision arg) s this.

Definition flags := get commodity_base_t.flags.
Definition set_flags (s : state) (this : addr) (arg : Z) : res state :=
  update (commodity_base_t.with_flags arg) s this.
(** [base->flags |= arg] *)
Definition add_flags (s : state) (this : addr) (arg : Z) : res state :=
  update (fun b => commodity_base_t.with_flags
                     (to_flags_t (Z.lor (commodity_base_t.flags b) arg)) b) s this.
(** [base->flags &= ~arg] *)
Definition drop_flags (s : state) (this : addr) (arg : Z) : res state :=
  update (fun b => commodity_base_t.with_flags
                     (to_flags_t (Z.land (commodity_base_t.flags b) (Z.lnot arg))) b) s this.

(** [smaller()], [larger()] and [history()] return by value: what the
    base holds is copied. *)
Definition smaller (s : state) (this : addr) : res (option amount_t) :=
  copy_optional <$> get commodity_base_t.smaller s this.

Definition larger (s : state) (this : addr) : res (option amount_t) :=
  copy_optional <$> get commodity_base_t.larger s this.

Definition history (s : state) (this : addr)
  : res (option commodity_base_t.history_t) :=
  fmap (M:=option) commodity_base_t.copy_history
    <$> get commodity_base_t.history s this.

Section assignment.

(** [amount_t::operator=] is declared in amount.h and defined elsewhere:
    the value of [*this] after the assignment, from its value before and
    the right-hand side. *)
Variable assign : amount_t -> amount_t -> amount_t.

(** The assignment of one [optional<amount_t>] to another: a held amount
    is assigned to, an empty one is filled by copy construction, and an
    empty right-hand side empties it. *)
Definition optional_assign (old arg : option amount_t) : option amount_t :=
  match old, arg with
  | Some x, Some y => Some (assign x y)
  | None, Some y => Some (copy_ctor y)
  | _, None => None
  end.

(** [base->smaller = arg] *)
Definition set_smaller (s : state) (this : addr) (arg : option amount_t) : res state :=
  update (fun b => commodity_base_t.with_smaller
                     (optional_assign (commodity_base_t.smaller b) arg) b) s this.

(** [base->larger = arg] *)
Definition set_larger (s : state) (this : addr) (arg : option amount_t) : res state :=
  update (fun b => commodity_base_t.with_larger
                     (optional_assign (commodity_base_t.larger b) arg) b) s this.

End assignment.

Section operator_eq.

(** [annotated_commodity_t::operator==], the override the virtual call
    reaches when the object is an annotated commodity; it is declared in
    commodity.h and defined elsewhere. *)
Variable annotated_eq : state -> addr -> addr -> res bool.

(** [commodity_t::operator==] as a virtual call on [this].  For a plain
    [this] and an argument whose [annotated] flag is set, the call is
    turned around ([comm == *this]); when that lands in this same
    function again with the flag of [this] set as well, the two calls
    alternate without end. *)
Definition operator_eq (s : state) (this comm : addr) : res bool :=
  t ← deref (objects s) (Some this);
  c ← deref (objects s) (Some comm);
  match t with
  | Annotated _ => annotated_eq s this comm
  | Plain tf =>
      if annotated (fields c) then
        match c with
        | Annotated _ => annotated_eq s comm this
        | Plain cf =>
            if annotated tf then Fault
            else Ret (bool_decide (base cf = base tf))
        end
      else Ret (bool_decide (base tf = base (fields c)))
  end.

(** [operator!=], from [equality_comparable1]. *)
Definition operator_ne (s : state) (this comm : addr) : res bool :=
  negb <$> operator_eq s this comm.

End operator_eq.

End commodity_t.

Module annotated_commodity_t.

(** [annotated_commodity_t(_ptr, _details)]:
    [commodity_t(_ptr->parent_, _ptr->base), ptr(_ptr), details(_details)]
    and then [annotated = true]; [details] is copy-constructed. *)
Definition ctor (s : state) (_ptr : ptr_t) (_details : annotation_t.t)
  : res annotated_fields :=
  p ← fields <$> deref (objects s) _ptr;
  let c := commodity_t.ctor (parent_ p) (base p) in
  Ret (mk_annotated
         (mk_commodity (base c) (parent_ c) (ident c) (qualified_symbol c)
                       (mapping_key_ c) true)
         _ptr (annotation_t.copy _details)).

(** [referent()]: [*ptr] *)
Definition referent (s : state) (this : addr) : res addr :=
  o ← deref (objects s) (Some this);
  match o with
  | Annotated a => ref_of (objects s) (ptr a)
  | Plain _ => Fault
  end.

(** [new annotated_commodity_t(_ptr, _details)] placed at address [a]. *)
Definition new (s : state) (a : addr) (_ptr : ptr_t) (_details : annotation_t.t)
  : res state :=
  o ← ctor s _ptr _details;
  Ret (set_objects <[a := Annotated o]> s).

End annotated_commodity_t.

(** ** amount.h: the inline members of amount_t *)

(** [commodity_ && commodity_ != commodity_->parent().null_commodity] *)
Definition has_commodity (s : state) (this : amount_t) : res bool :=
  match commodity_ this with
  | None => Ret false
  | Some c =>
      p ← commodity_t.parent s c;
      pool ← deref (pools s) (Some p);
      Ret (negb (bool_decide (Some c = commodity_pool_t.null_commodity pool)))
  end.

(** [has_commodity() ? *commodity_ : *default_pool->null_commodity] *)
Definition commodity (s : state) (this : amount_t) : res addr :=
  h ← has_commodity s this;
  if h : bool then ref_of (objects s) (commodity_ this)
  else
    pool ← deref (pools s) (default_pool s);
    ref_of (objects s) (commodity_pool_t.null_commodity pool).

(** [! quantity && ! has_commodity()]; the right operand is evaluated
    only when the quantity is absent. *)
Definition is_null (s : state) (this : amount_t) : res bool :=
  match quantity this with
  | Some _ => Ret false
  | None => negb <$> has_commodity s this
  end.

Definition set_commodity (this : amount_t) (comm : addr) : amount_t :=
  mk_amount (quantity this) (Some comm).

Definition clear_commodity (this : amount_t) : amount_t :=
  mk_amount (quantity this) None.

Definition number (s : state) (this : amount_t) : res amount_t :=
  h ← has_commodity s this;
  if h : bool then Ret (clear_commodity (copy_ctor this))
  else Ret (copy_ctor this).

(** ** BigRational

    Modelled from the spec: the arithmetic on quantities is defined
    outside amount.h.  These follow the contracts of the spec's
    BigRational component. *)

Module BigRational.

Definition pow10 (n : N) : Z := 10 ^ Z.of_N n.

(** The numerator of [a] once its scale is raised to [p]. *)
Definition scaled (a : bigint_t) (p : N) : Z := val a * pow10 (p - prec a).

Definition add (a b : bigint_t) : bigint_t :=
  let p := N.max (prec a) (prec b) in
  mk_bigint (scaled a p + scaled b p) p.

Definition sub (a b : bigint_t) : bigint_t :=
  let p := N.max (prec a) (prec b) in
  mk_bigint (scaled a p - scaled b p) p.

Definition mul (a b : bigint_t) : bigint_t :=
  mk_bigint (val a * val b) (prec a + prec b).

Definition MIN_EXTENDED_DIGITS : N := 6.

(** The dividend is extended to [MIN_EXTENDED_DIGITS] past the larger
    operand precision and divided with truncation toward zero. *)
Definition div (a b : bigint_t) : res bigint_t :=
  if val b =? 0 then Throw DivideByZero
  else
    let p := (N.max (prec a) (prec b) + MIN_EXTENDED_DIGITS)%N in
    Ret (mk_bigint (Z.quot (val a * pow10 (p + prec b - prec a)) (val b)) p).

Definition negate (a : bigint_t) : bigint_t := mk_bigint (- val a) (prec a).

Definition sign (a : bigint_t) : Z := Z.sgn (val a).

Definition is_zero (a : bigint_t) : bool := val a =? 0.

(** Scales are aligned, then the numerators are compared. *)
Definition compare (a b : bigint_t) : Z :=
  let p := N.max (prec a) (prec b) in
  match scaled a p ?= scaled b p with
  | Lt => -1
  | Eq => 0
  | Gt => 1
  end.

(** [n / d] rounded to the nearest integer, ties to the even one. *)
Definition round_half_even (n d : Z) : Z :=
  let q := n / d in
  match 2 * (n mod d) ?= d with
  | Lt => q
  | Gt => q + 1
  | Eq => if Z.even q then q else q + 1
  end.

Definition rescale_to (p : N) (a : bigint_t) : bigint_t :=
  if (p <? prec a)%N
  then mk_bigint (round_half_even (val a) (pow10 (prec a - p))) p
  else mk_bigint (val a * pow10 (p - prec a)) p.

End BigRational.

(** Modelled from the spec: [amount_t(long)] is declared in amount.h and
    defined elsewhere; the scale is 0 and there is no commodity. *)
Definition amount_of_long (v : Z) : amount_t :=
  mk_amount (Some (mk_bigint v 0)) None.

(** An amount used as a value: without a quantity it is zero, as amount.h
    documents for [amount_t()]. *)
Definition value_of (a : amount_t) : bigint_t :=
  default (mk_bigint 0 0) (quantity a).

(** Modelled from the spec: [round(precision_t)] is declared in amount.h
    and defined elsewhere.  The quantity is rescaled to [p]; the
    commodity stays. *)
Definition round_prec (this : amount_t) (p : N) : amount_t :=
  mk_amount (BigRational.rescale_to p <$> quantity this) (commodity_ this).

(** [round()] *)
Definition round (s : state) (this : amount_t) : res amount_t :=
  h ← has_commodity s this;
  if negb h then Ret (copy_ctor this)
  else
    c ← commodity s this;
    p ← commodity_t.precision s c;
    Ret (round_prec this p).

(** ** Comparison of amounts *)

Section comparison.

(** The override [annotated_commodity_t::operator==] and
    [amount_t::compare] are declared in the headers and defined
    elsewhere; the inline code below is read for any of them. *)
Variable annotated_eq : state -> addr -> addr -> res bool.
Variable compare : state -> amount_t -> amount_t -> res Z.

(** [commodity() != amt.commodity()] *)
Definition commodities_differ (s : state) (this amt : amount_t) : res bool :=
  ca ← commodity s this;
  cb ← commodity s amt;
  commodity_t.operator_ne annotated_eq s ca cb.

(** [amount_t::operator==(const amount_t&)] *)
Definition operator_eq (s : state) (this amt : amount_t) : res bool :=
  d ← commodities_differ s this amt;
  if d : bool then Ret false
  else r ← compare s this amt; Ret (r =? 0).

(** The member templates [operator==], [operator<] and [operator>],
    applied to a value already converted to an amount. *)
Definition operator_eq_T (s : state) (this val : amount_t) : res bool :=
  r ← compare s this val; Ret (r =? 0).
Definition operator_lt (s : state) (this amt : amount_t) : res bool :=
  r ← compare s this amt; Ret (r <? 0).
Definition operator_gt (s : state) (this amt : amount_t) : res bool :=
  r ← compare s this amt; Ret (r >? 0).

End comparison.

(** [operator==] of two [optional<T>]: both empty, or both holding equal
    values. *)
Definition optional_eq {A} (eq : A -> A -> res bool) (x y : option A) : res bool :=
  match x, y with
  | None, None => Ret true
  | Some a, Some b => eq a b
  | _, _ => Ret false
  end.

(** [annotation_t::operator==]: [price == rhs.price && date == rhs.date
    && tag == rhs.tag], the prices compared as amounts. *)
Definition annotation_operator_eq (amount_eq : amount_t -> amount_t -> res bool)
    (l r : annotation_t.t) : res bool :=
  p ← optional_eq amount_eq (annotation_t.price l) (annotation_t.price r);
  if p : bool then
    Ret (bool_decide (annotation_t.date l = annotation_t.date r)
         && bool_decide (annotation_t.tag l = annotation_t.tag r))
  else Ret false.

(** ** Arithmetic on amounts

    Modelled from the spec: [compare] and the operators [+=], [-=], [*=]
    and [/=] are declared in amount.h and defined elsewhere.  The
    definitions follow the spec's section on Amount arithmetic and its
    error taxonomy. *)

Section arithmetic.

Variable annotated_eq : state -> addr -> addr -> res bool.

(** [commodity_pool_t::find_or_create(commodity_t&, const annotation_t&)]
    is declared in commodity.h and defined elsewhere: called on a pool
    with a commodity and an annotation, it returns a commodity and may
    change the store. *)
Variable find_or_create :
  state -> addr -> addr -> annotation_t.t -> res (addr * state).

(** Modelled from the spec: [strip_annotations] is declared in amount.h
    and defined elsewhere.  The result is the amount with its quantity;
    when its commodity is an annotated one, the commodity of the result
    is the annotated variant of the referent that retains only the
    details asked for, resolved by the pool of the commodity, or the
    referent itself if nothing remains. *)
Definition strip_annotations (s : state) (this : amount_t)
    (_keep_price _keep_date _keep_tag : bool) : res (amount_t * state) :=
  h ← has_commodity s this;
  if negb h then Ret (this, s)
  else
    c ← commodity s this;
    o ← deref (objects s) (Some c);
    match o with
    | Plain _ => Ret (this, s)
    | Annotated x =>
        r ← annotated_commodity_t.referent s c;
        let kept := annotation_t.keep _keep_price _keep_date _keep_tag (details x) in
        if annotation_t.to_bool kept then
          p ← commodity_t.parent s c;
          cs ← find_or_create s p r kept;
          Ret (set_commodity this cs.1, cs.2)
        else Ret (set_commodity this r, s)
    end.

(** [strip_annotations()] with its default arguments, the static members
    [keep_price], [keep_date] and [keep_tag]. *)
Definition strip_annotations_default (s : state) (this : amount_t)
  : res (amount_t * state) :=
  strip_annotations s this (keep_price s) (keep_date s) (keep_tag s).

(** Modelled from the spec: comparing amounts of distinct non-null
    commodities fails with [IncompatibleCommodities]; otherwise the
    quantities are compared. *)
Definition compare_spec (s : state) (this amt : amount_t) : res Z :=
  h1 ← has_commodity s this;
  h2 ← has_commodity s amt;
  d ← (if h1 && h2 then commodities_differ annotated_eq s this amt else Ret false);
  if d : bool then Throw IncompatibleCommodities
  else Ret (BigRational.compare (value_of this) (value_of amt)).

(** Modelled from the spec: two operands whose commodities are both
    non-null and unequal are reconciled by leaving out the lot details
    that are not kept: each is stripped under [keep_price], [keep_date]
    and [keep_tag], and the operation goes on in the left operand's
    stripped commodity if the stripped commodities are equal.  It fails
    with [IncompatibleCommodities] if they are still unequal. *)
Definition reconcile (op : bigint_t -> bigint_t -> bigint_t)
    (s : state) (this amt : amount_t) : res (amount_t * state) :=
  l ← strip_annotations_default s this;
  r ← strip_annotations_default l.2 amt;
  d ← commodities_differ annotated_eq r.2 l.1 r.1;
  if d : bool then Throw IncompatibleCommodities
  else Ret (mk_amount (Some (op (value_of this) (value_of amt))) (commodity_ l.1),
            r.2).

(** Modelled from the spec: if either operand is null the result is a
    copy of the other (the left operand as it is when the right one is
    null); across unequal commodities the operation fails unless one
    operand has the null commodity, whose place the other's commodity
    takes, or the commodities differ only in lot details that are not
    kept (amount.h on [keep_price]: [10 AAPL + 10 AAPL {$20}] is
    [20 AAPL] when [keep_price] is false).  The value comes with the
    store, which only the resolving of a stripped commodity can
    change. *)
Definition additive (op : bigint_t -> bigint_t -> bigint_t)
    (s : state) (this amt : amount_t) : res (amount_t * state) :=
  n1 ← is_null s this;
  n2 ← is_null s amt;
  if n2 : bool then Ret (this, s)
  else if n1 : bool then Ret (_copy amt, s)
  else
    h1 ← has_commodity s this;
    h2 ← has_commodity s amt;
    d ← (if h1 && h2 then commodities_differ annotated_eq s this amt else Ret false);
    if d : bool then reconcile op s this amt
    else Ret (mk_amount (Some (op (value_of this) (value_of amt)))
                        (if h1 : bool then commodity_ this else commodity_ amt),
              s).

Definition operator_plus_eq := additive BigRational.add.
Definition operator_minus_eq := additive BigRational.sub.

(** Modelled from the spec: the product keeps the left operand's
    commodity and has the sum of the operand precisions.  The widening of
    the commodity's display precision, which the spec allows as a side
    effect, is not part of the value returned. *)
Definition operator_times_eq (s : state) (this amt : amount_t) : res amount_t :=
  n1 ← is_null s this;
  n2 ← is_null s amt;
  if n2 : bool then Ret this
  else if n1 : bool then Ret (_copy amt)
  else Ret (mk_amount (Some (BigRational.mul (value_of this) (value_of amt)))
                      (commodity_ this)).

(** Modelled from the spec: as for the other operators, if either
    operand is null the result is a copy of the other, except that
    [0 / null], a dividend whose value is zero over a null divisor, fails
    with [DivideByZero].  Between two amounts that are not null, division
    fails with [DivideByZero] when the divisor's numerator is zero, and
    the quotient keeps the left operand's commodity. *)
Definition operator_div_eq (s : state) (this amt : amount_t) : res amount_t :=
  n1 ← is_null s this;
  n2 ← is_null s amt;
  if n2 : bool then
    if BigRational.is_zero (value_of this) then Throw DivideByZero
    else Ret this
  else if n1 : bool then Ret (_copy amt)
  else
    q ← BigRational.div (value_of this) (value_of amt);
    Ret (mk_amount (Some q) (commodity_ this)).

End arithmetic.

(** [amount_t::operator==] over the modelled [compare]. *)
Definition amount_operator_eq (annotated_eq : state -> addr -> addr -> res bool) :=
  operator_eq annotated_eq (compare_spec annotated_eq).

Module annotated_commodity_eq.

(** Modelled from the spec: [annotated_commodity_t::operator==] is
    declared in commodity.h and defined elsewhere.  Two annotated
    commodities are equal iff their referents are equal and their
    annotations are equal; an annotated commodity is never equal to one
    that is not annotated.  The annotations hold amounts, whose
    commodities may be annotated in turn: [depth] bounds that nesting. *)
Fixpoint operator_eq (depth : nat) (s : state) (this comm : addr) : res bool :=
  match depth with
  | O => Fault
  | S n =>
      t ← deref (objects s) (Some this);
      c ← deref (objects s) (Some comm);
      match t, c with
      | Annotated ta, Annotated ca =>
          if annotated (super ca) then
            pt ← ref_of (objects s) (ptr ta);
            pc ← ref_of (objects s) (ptr ca);
            e ← commodity_t.operator_eq (operator_eq n) s pt pc;
            if e : bool then
              annotation_operator_eq
                (amount_operator_eq (operator_eq n) s) (details ta) (details ca)
            else Ret false
          else Ret false
      | Annotated _, Plain cf => if annotated cf then Fault else Ret false
      | Plain _, _ => Fault
      end
  end.

End annotated_commodity_eq.

(** ** Parsing entry points *)

Section parsing.

(** [parse(commodity_pool_t&, std::istream&, flags_t)] is declared in
    amount.h and defined elsewhere.  The stream is given by its contents;
    the call yields the new value of the amount and the new store. *)
Variable parse_stream :
  state -> amount_t -> addr -> string -> Z -> res (amount_t * state).

(** [parse(commodity_pool_t& parent, const string& str, flags_t flags)] *)
Definition parse_in (s : state) (this : amount_t) (parent : addr)
    (str : string) (flags : Z) : res (amount_t * state) :=
  parse_stream s this parent str flags.

(** [parse(const string& str, flags_t flags)]: [assert(default_pool)],
    then the parse against [*default_pool]. *)
Definition parse (s : state) (this : amount_t) (str : string) (flags : Z)
  : res (amount_t * state) :=
  parent ← ref_of (pools s) (default_pool s);
  parse_in s this parent str flags.

(** [amount_t::exact] *)
Definition exact (s : state) (value : string) : res (amount_t * state) :=
  parse s amount_ctor0 value AMOUNT_PARSE_NO_MIGRATE.

(** [commodity_pool_t::parse_amount(const string& str, flags_t flags)] of
    the pool at [this]. *)
Definition parse_amount (s : state) (this : addr) (str : string) (flags : Z)
  : res (amount_t * state) :=
  parse_in s amount_ctor0 this str flags.

End parsing.

(** ** The [get_quote] signal

    [get_quote] is a signal whose combiner is [first_initialized].  The
    combiner walks the range of slot-call iterators the signal hands to
    it: dereferencing an iterator calls the slot it stands at with the
    arguments of the signal and keeps the value until the iterator moves
    on.  A slot may change the world it runs in. *)

Section signal.

Context {World Args T : Type}.

Definition slot : Type := Args -> World -> T * World.

(** An iterator standing at a slot, with the value the slot gave if it
    was called already. *)
Record slot_call_iterator : Type := mk_iter {
  current : slot;
  cache : option T
}.

(** [*first] *)
Definition dereference (a : Args) (it : slot_call_iterator) (w : World)
  : T * slot_call_iterator * World :=
  match cache it with
  | Some v => (v, it, w)
  | None =>
      let r := current it a w in
      (r.1, mk_iter (current it) (Some r.1), r.2)
  end.

(** The conversion of a [T] to [bool], and [T()]. *)
Variable initialized : T -> bool.
Variable T0 : T.

(** [first_initialized::operator()] on the range of the slots from
    [first] to the end:
    while [first != last], return [*first] if it converts to [true],
    else move on; at the end return [T()]. *)
Fixpoint first_initialized (a : Args) (first : list slot) (w : World) : T * World :=
  match first with
  | [] => (T0, w)
  | f :: rest =>
      let d1 := dereference a (mk_iter f None) w in
      if initialized d1.1.1 then
        let d2 := dereference a d1.1.2 d1.2 in
        (d2.1.1, d2.2)
      else first_initialized a rest d1.2
  end.

End signal.

(** The arguments of a quote request: the commodity, [date], [moment] and
    [last]. *)
Definition quote_args : Type :=
  addr * option moment_t * option moment_t * option moment_t.

(** [commodity_pool_t::get_quote(...)] with the slots connected, in the
    order they are called. *)
Definition get_quote {World : Type}
    (slots : list (@slot World quote_args (option amount_t)))
    (a : quote_args) (w : World) : option amount_t * World :=
  first_initialized (fun o => bool_decide (is_Some o)) None a slots w.

(** Running slots in order as long as each answers [None]: the world
    after them, or [None] as soon as one answers. *)
Fixpoint all_none {World Args A : Type}
    (a : Args) (l : list (@slot World Args (option A))) (w : World) : option World :=
  match l with
  | [] => Some w
  | f :: rest =>
      match (f a w).1 with
      | None => all_none a rest (f a w).2
      | Some _ => None
      end
  end.

(** ** Mutations of display metadata through a commodity handle *)

Inductive mutation : Set :=
| SetPrecision (arg : N)
| SetFlags (arg : Z)
| AddFlags (arg : Z)
| DropFlags (arg : Z)
| SetName (arg : option string)
| SetNote (arg : option string).

Definition mutate (s : state) (this : addr) (m : mutation) : res state :=
  match m with
  | SetPrecision arg => commodity_t.set_precision s this arg
  | SetFlags arg => commodity_t.set_flags s this arg
  | AddFlags arg => commodity_t.add_flags s this arg
  | DropFlags arg => commodity_t.drop_flags s this arg
  | SetName arg => commodity_t.set_name s this arg
  | SetNote arg => commodity_t.set_note s this arg
  end.

Fixpoint mutate_all (s : state) (l : list (addr * mutation)) : res state :=
  match l with
  | [] => Ret s
  | (this, m) :: rest => s' ← mutate s this m; mutate_all s' rest
  end.

(** What the accessors [precision()], [flags()], [name()] and [note()]
    show through a handle. *)
Definition display_metadata (s : state) (this : addr)
  : res (N * Z * option string * option string) :=
  p ← commodity_t.precision s this;
  f ← commodity_t.flags s this;
  n ← commodity_t.name s this;
  o ← commodity_t.note s this;
  Ret (p, f, n, o).

(** The effect of a mutation on what the four accessors show. *)
Definition apply_mutation (m : mutation)
    (md : N * Z * option string * option string)
  : N * Z * option string * option string :=
  match md, m with
  | (p, f, n, o), SetPrecision arg => (arg, f, n, o)
  | (p, f, n, o), SetFlags arg => (p, arg, n, o)
  | (p, f, n, o), AddFlags arg => (p, to_flags_t (Z.lor f arg), n, o)
  | (p, f, n, o), DropFlags arg => (p, to_flags_t (Z.land f (Z.lnot arg)), n, o)
  | (p, f, n, o), SetName arg => (p, f, arg, o)
  | (p, f, n, o), SetNote arg => (p, f, n, arg)
  end.

(** The four fields as a base holds them, and the change a mutation
    makes to a base. *)
Definition metadata_of (b : commodity_base_t.t) : N * Z * option string * option string :=
  (commodity_base_t.precision b, commodity_base_t.flags b,
   commodity_base_t.name b, commodity_base_t.note b).

Definition mutation_fun (m : mutation) (b : commodity_base_t.t) : commodity_base_t.t :=
  match m with
  | SetPrecision arg => commodity_base_t.with_precision arg b
  | SetFlags arg => commodity_base_t.with_flags arg b
  | AddFlags arg =>
      commodity_base_t.with_flags (to_flags_t (Z.lor (commodity_base_t.flags b) arg)) b
  | DropFlags arg =>
      commodity_base_t.with_flags
        (to_flags_t (Z.land (commodity_base_t.flags b) (Z.lnot arg))) b
  | SetName arg => commodity_base_t.with_name arg b
  | SetNote arg => commodity_base_t.with_note arg b
  end.

(** ** Well-formedness of the store *)

(** Two handles whose objects hold the same base pointer. *)
Definition same_base (s : state) (h1 h2 : addr) : Prop :=
  exists o1 o2, objects s !! h1 = Some o1 /\ objects s !! h2 = Some o2 /\
                base (fields o1) = base (fields o2).

(** [n] is the live [null_commodity] of [*default_pool]. *)
Definition default_null (s : state) (n : addr) : Prop :=
  exists dp dpool,
    default_pool s = Some dp /\ pools s !! dp = Some dpool /\
    commodity_pool_t.null_commodity dpool = Some n /\ is_Some (objects s !! n).

(** [c] is the [null_commodity] sentinel of the pool that owns it. *)
Definition pool_null (s : state) (c : addr) : Prop :=
  exists p pool,
    commodity_t.parent s c = Ret p /\ pools s !! p = Some pool /\
    commodity_pool_t.null_commodity pool = Some c.

(** The commodity pointer is null or the sentinel of its owning pool. *)
Definition no_commodity (s : state) (a : amount_t) : Prop :=
  commodity_ a = None \/ exists c, commodity_ a = Some c /\ pool_null s c.

(** ** A small store

    One pool (the default one) holding its null commodity, the plain
    commodities [$] and [EUR], and [AAPL] with a lot annotated by a
    price of [$20]. *)

Module sample.

Definition pool : addr := 1%positive.
Definition null : addr := 1%positive.
Definition usd : addr := 2%positive.
Definition eur : addr := 3%positive.
Definition aapl : addr := 4%positive.
Definition aapl_lot : addr := 5%positive.

Definition plain (a : addr) (i : N) : commodity_obj :=
  Plain (mk_commodity (Some a) (Some pool) (Some i) None None false).

Definition lot_details : annotation_t.t :=
  annotation_t.mk (Some (mk_amount (Some (mk_bigint 20 0)) (Some usd))) None None.

Definition lot : commodity_obj :=
  Annotated (mk_annotated
               (mk_commodity (Some aapl) (Some pool) (Some 4%N) None
                             (Some "AAPL {$20}"%string) true)
               (Some aapl) lot_details).

Definition st : state :=
  mk_state
    (<[null := commodity_base_t.ctor0]>
       (<[usd := commodity_base_t.ctor "$" 2 COMMODITY_STYLE_DEFAULTS]>
          (<[eur := commodity_base_t.ctor "EUR" 2
                      (Z.lor COMMODITY_STYLE_SUFFIXED COMMODITY_STYLE_SEPARATED)]>
             (<[aapl := commodity_base_t.ctor "AAPL" 0
                          (Z.lor COMMODITY_STYLE_SUFFIXED COMMODITY_STYLE_SEPARATED)]>
                ∅))))
    (<[null := plain null 0]>
       (<[usd := plain usd 1]>
          (<[eur := plain eur 2]>
             (<[aapl := plain aapl 3]>
                (<[aapl_lot := lot]> ∅)))))
    (<[pool := commodity_pool_t.mk [null; usd; eur; aapl; aapl_lot] (Some null) None]> ∅)
    (Some pool) false false false.

(** [$5.00], [$0.00], [5] without a commodity, and a default-constructed
    amount handed [$] by [set_commodity]. *)
Definition usd5 : amount_t := mk_amount (Some (mk_bigint 500 2)) (Some usd).
Definition usd0 : amount_t := mk_amount (Some (mk_bigint 0 2)) (Some usd).
Definition eur1 : amount_t := mk_amount (Some (mk_bigint 100 2)) (Some eur).
Definition five : amount_t := amount_of_long 5.
Definition usd_unset : amount_t := set_commodity amount_ctor0 usd.

(** [10 AAPL] and [10 AAPL {$20}]. *)
Definition aapl10 : amount_t := mk_amount (Some (mk_bigint 10 0)) (Some aapl).
Definition aapl_lot10 : amount_t := mk_amount (Some (mk_bigint 10 0)) (Some aapl_lot).

(** [$100.005], held at three decimals. *)
Definition usd100_005 : amount_t := mk_amount (Some (mk_bigint 100005 3)) (Some usd).

(** Slots that write their number to a log of calls and answer [None],
    or a given amount. *)
Definition log_none (i : nat) : @slot (list nat) quote_args (option amount_t) :=
  fun _ w => (None, i :: w).
Definition log_some (i : nat) (v : amount_t)
  : @slot (list nat) quote_args (option amount_t) :=
  fun _ w => (Some v, i :: w).
Definition request : quote_args := (aapl, None, None, None).

(** The override used where a concrete one is needed. *)
Definition annotated_eq := annotated_commodity_eq.operator_eq 8.

(** Whether [h] is an annotated variant of [comm] with the details [d]. *)
Definition is_variant (s : state) (comm : addr) (d : annotation_t.t) (h : addr)
  : bool :=
  match objects s !! h with
  | Some (Annotated x) => bool_decide (ptr x = Some comm) && bool_decide (details x = d)
  | _ => false
  end.

(** Modelled from the spec: [find_or_create] is declared in commodity.h
    and defined elsewhere; this one is used where a concrete one is
    needed.  Annotated commodities with equal annotations resolve to the
    same handle: a variant that the pool holds is returned, otherwise one
    is built at the next address and entered into the pool.  The mapping
    key of a new variant is not rendered. *)
Definition find_or_create (s : state) (this comm : addr) (d : annotation_t.t)
  : res (addr * state) :=
  p ← deref (pools s) (Some this);
  match List.find (is_variant s comm d) (commodity_pool_t.commodities p) with
  | Some h => Ret (h, s)
  | None =>
      let a := Pos.succ (foldr Pos.max 1%positive (commodity_pool_t.commodities p)) in
      s1 ← annotated_commodity_t.new s a (Some comm) d;
      Ret (a, set_pools
                <[this := commodity_pool_t.mk
                            (commodity_pool_t.commodities p ++ [a])
                            (commodity_pool_t.null_commodity p)
                            (commodity_pool_t.default_commodity p)]> s1)
  end.

End sample.

(** ** Predicates on stores and mutations *)

(** Every base holds its flags as a [flags_t] value. *)
Definition flags_in_range (s : state) : Prop :=
  forall a b, bases s !! a = Some b ->
              0 <= commodity_base_t.flags b < 256.

(** The argument of [set_flags] is a [flags_t] value. *)
Definition mutation_in_range (m : mutation) : Prop :=
  match m with
  | SetFlags arg => 0 <= arg < 256
  | _ => True
  end.

(** [c] points to a [commodity_t] object that is not annotated. *)
Definition plain_at (s : state) (c : addr) : Prop :=
  exists f, objects s !! c = Some (Plain f) /\ annotated f = false.

(** [c] points to an object whose [annotated] member agrees with its
    class, as the two constructors leave it. *)
Definition tagged (s : state) (c : addr) : Prop :=
  match objects s !! c with
  | Some (Plain f) => annotated f = false
  | Some (Annotated a) => annotated (super a) = true
  | None => False
  end.

(** * Properties *)

(** ** The model on the sample store *)

Example lot_is_not_its_referent :
  commodity_t.operator_eq sample.annotated_eq sample.st sample.aapl_lot sample.aapl
  = Ret false /\
  commodity_t.operator_eq sample.annotated_eq sample.st sample.aapl sample.aapl_lot
  = Ret false /\
  commodity_t.operator_eq sample.annotated_eq sample.st sample.aapl_lot sample.aapl_lot
  = Ret true.
Proof. repeat split. Qed.

Example lot_shows_referent_metadata :
  display_metadata sample.st sample.aapl_lot = Ret (0%N, 3, None, None) /\
  (s ← commodity_t.drop_flags sample.st sample.aapl_lot COMMODITY_STYLE_SUFFIXED;
   display_metadata s sample.aapl) = Ret (0%N, 2, None, None).
Proof. split; reflexivity. Qed.

Example usd5_plus_five :
  operator_plus_eq sample.annotated_eq sample.find_or_create
                   sample.st sample.usd5 sample.five
  = Ret (mk_amount (Some (mk_bigint 1000 2)) (Some sample.usd), sample.st).
Proof. reflexivity. Qed.

Example strip_lot :
  strip_annotations_default sample.find_or_create sample.st sample.aapl_lot10
  = Ret (sample.aapl10, sample.st) /\
  strip_annotations_default sample.find_or_create
    (set_keep true false false sample.st) sample.aapl_lot10
  = Ret (sample.aapl_lot10, set_keep true false false sample.st) /\
  strip_annotations_default sample.find_or_create
    (set_keep false true true sample.st) sample.aapl_lot10
  = Ret (sample.aapl10, set_keep false true true sample.st).
Proof. repeat split. Qed.

Example usd5_div_five :
  operator_div_eq sample.st sample.usd5 sample.five
  = Ret (mk_amount (Some (mk_bigint 100000000 8)) (Some sample.usd)).
Proof. reflexivity. Qed.

Example round_half_even_ties :
  BigRational.round_half_even 25 10 = 2 /\ BigRational.round_half_even 35 10 = 4 /\
  BigRational.round_half_even (-25) 10 = -2 /\ BigRational.round_half_even 26 10 = 3.
Proof. repeat split. Qed.

Example usd_unset_has_usd :
  has_commodity sample.st sample.usd_unset = Ret true /\
  commodity sample.st sample.usd_unset = Ret sample.usd /\
  copy_ctor sample.usd_unset = amount_ctor0.
Proof. repeat split. Qed.

(** ** Null amounts *)

Lemma is_null_true_quantity (s : state) (a : amount_t) :
  is_null s a = Ret true -> quantity a = None.
Proof.
  unfold is_null. destruct (quantity a); [discriminate | reflexivity].
Qed.

Lemma is_null_iff_valid (s : state) (a : amount_t) :
  (quantity a = None -> commodity_ a = None) ->
  is_null s a = Ret true <-> quantity a = None.
Proof.
  intros Hv. split; [apply is_null_true_quantity|].
  intros Hq. unfold is_null, has_commodity. rewrite Hq, (Hv Hq). reflexivity.
Qed.

(** C5, as the code has it: [is_null] holds exactly of the amounts that
    have neither a quantity nor a commodity; the absence of the quantity
    alone is not enough, except on amounts that keep the invariant that
    an amount without a quantity has no commodity pointer. *)
Theorem is_null_iff (s : state) (a : amount_t) :
  (is_null s a = Ret true <-> quantity a = None /\ has_commodity s a = Ret false) /\
  ((quantity a = None -> commodity_ a = None) ->
   (is_null s a = Ret true <-> quantity a = None)).
Proof.
  split; [|apply is_null_iff_valid].
  unfold is_null. split.
  - destruct (quantity a) as [q|]; [discriminate|].
    destruct (has_commodity s a) as [[]| |]; simpl; intros H;
      try discriminate; split; reflexivity.
  - intros [-> ->]. reflexivity.
Qed.

Lemma is_null_iff_witness :
  is_null sample.st amount_ctor0 = Ret true /\
  (is_null sample.st sample.usd5 = Ret true <-> quantity sample.usd5 = None).
Proof.
  split.
  - apply (proj2 (is_null_iff sample.st amount_ctor0) (fun _ => eq_refl)).
    reflexivity.
  - apply (proj2 (is_null_iff sample.st sample.usd5)).
    intros H. discriminate H.
Defined.

(** C5 as stated does not hold: a default-constructed amount given the
    commodity [$] by [set_commodity] has no quantity and is not null. *)
Lemma is_null_not_iff_quantity_absent :
  quantity sample.usd_unset = None /\ is_null sample.st sample.usd_unset = Ret false.
Proof. split; reflexivity. Qed.

(** ** The null commodity *)

Lemma has_commodity_no_commodity (s : state) (a : amount_t) :
  no_commodity s a -> has_commodity s a = Ret false.
Proof.
  unfold has_commodity.
  intros [-> | (c & -> & p & pool & Hp & Hpool & Hnull)]; [reflexivity|].
  rewrite Hp. simpl. rewrite Hpool. simpl. rewrite Hnull.
  rewrite bool_decide_eq_true_2 by reflexivity. reflexivity.
Qed.

Lemma commodity_default (s : state) (a : amount_t) (n : addr) :
  default_null s n -> has_commodity s a = Ret false -> commodity s a = Ret n.
Proof.
  intros (dp & dpool & Hdp & Hpool & Hnull & [o Ho]) Hh.
  unfold commodity. rewrite Hh. simpl. rewrite Hdp. simpl. rewrite Hpool. simpl.
  rewrite Hnull. simpl. rewrite Ho. reflexivity.
Qed.

Lemma has_commodity_true_live (s : state) (a : amount_t) :
  has_commodity s a = Ret true ->
  exists c, commodity_ a = Some c /\ is_Some (objects s !! c).
Proof.
  unfold has_commodity. destruct (commodity_ a) as [c|]; [|discriminate].
  intros H. exists c. split; [reflexivity|].
  unfold commodity_t.parent, commodity_t.this_fields in H. simpl in H.
  destruct (objects s !! c) as [o|]; [eauto | discriminate].
Qed.

Lemma commodity_present (s : state) (a : amount_t) :
  has_commodity s a = Ret true ->
  exists c, commodity_ a = Some c /\ commodity s a = Ret c.
Proof.
  intros H. destruct (has_commodity_true_live s a H) as (c & Hc & [o Ho]).
  exists c. split; [assumption|].
  unfold commodity. rewrite H. simpl. rewrite Hc. simpl. rewrite Ho. reflexivity.
Qed.

(** C10: with a null commodity pointer, or with the sentinel of the
    owning pool, [has_commodity()] is false and [commodity()] is the
    null commodity of the default pool; [commodity()] always names a
    live commodity; and [set_commodity] with the sentinel cannot be told
    from [clear_commodity] through the two accessors. *)
Theorem null_commodity_is_no_commodity (s : state) (n : addr) :
  default_null s n ->
  (forall a, no_commodity s a ->
             has_commodity s a = Ret false /\ commodity s a = Ret n) /\
  (forall a, returns (has_commodity s a) ->
             exists c, commodity s a = Ret c /\ is_Some (objects s !! c)) /\
  (forall a c, pool_null s c ->
               has_commodity s (set_commodity a c) = has_commodity s (clear_commodity a) /\
               commodity s (set_commodity a c) = commodity s (clear_commodity a)).
Proof.
  intros Hd. split; [|split].
  - intros a Ha. pose proof (has_commodity_no_commodity s a Ha) as Hh.
    split; [assumption|]. apply commodity_default; assumption.
  - intros a [[] Hh].
    + destruct (commodity_present s a Hh) as (c & Hc & Hcomm).
      destruct (has_commodity_true_live s a Hh) as (c' & Hc' & Hlive).
      exists c. split; [assumption|]. congruence.
    + exists n. split; [apply commodity_default; assumption|].
      destruct Hd as (? & ? & _ & _ & _ & Hlive). assumption.
  - intros a c Hc.
    assert (H1 : has_commodity s (set_commodity a c) = Ret false).
    { apply has_commodity_no_commodity. right. exists c. split; [reflexivity | assumption]. }
    assert (H2 : has_commodity s (clear_commodity a) = Ret false).
    { apply has_commodity_no_commodity. left. reflexivity. }
    rewrite H1, H2. split; [reflexivity|].
    rewrite !(commodity_default _ _ n) by assumption. reflexivity.
Qed.

Lemma sample_default_null : default_null sample.st sample.null.
Proof.
  exists sample.pool, (commodity_pool_t.mk
                         [sample.null; sample.usd; sample.eur; sample.aapl; sample.aapl_lot]
                         (Some sample.null) None).
  repeat split. eexists. reflexivity.
Defined.

Lemma sample_pool_null : pool_null sample.st sample.null.
Proof.
  exists sample.pool, (commodity_pool_t.mk
                         [sample.null; sample.usd; sample.eur; sample.aapl; sample.aapl_lot]
                         (Some sample.null) None).
  repeat split.
Defined.

Lemma null_commodity_is_no_commodity_witness :
  (has_commodity sample.st (set_commodity sample.five sample.null) = Ret false /\
   commodity sample.st (set_commodity sample.five sample.null) = Ret sample.null) /\
  (exists c, commodity sample.st sample.usd5 = Ret c /\ is_Some (objects sample.st !! c)) /\
  (has_commodity sample.st (set_commodity sample.usd5 sample.null)
   = has_commodity sample.st (clear_commodity sample.usd5) /\
   commodity sample.st (set_commodity sample.usd5 sample.null)
   = commodity sample.st (clear_commodity sample.usd5)).
Proof.
  destruct (null_commodity_is_no_commodity sample.st sample.null sample_default_null)
    as (Ha & Hb & Hc).
  split; [|split].
  - apply Ha. right. exists sample.null. split; [reflexivity | exact sample_pool_null].
  - apply Hb. exists true. reflexivity.
  - apply Hc. exact sample_pool_null.
Defined.

(** ** Annotated commodities share the base of their referent *)

Lemma bind_ret_inv {A B} (m : res A) (f : A -> res B) (b : B) :
  (m ≫= f) = Ret b -> exists a, m = Ret a /\ f a = Ret b.
Proof. destruct m; simpl; intros H; try discriminate. eauto. Qed.

Lemma fmap_ret_inv {A B} (m : res A) (f : A -> B) (b : B) :
  f <$> m = Ret b -> exists a, m = Ret a /\ b = f a.
Proof. destruct m; simpl; intros H; try discriminate. injection H as <-. eauto. Qed.

Lemma deref_ret_inv {A} (m : gmap addr A) (p : ptr_t) (x : A) :
  deref m p = Ret x -> exists a, p = Some a /\ m !! a = Some x.
Proof.
  unfold deref. destruct p as [a|]; [|discriminate].
  destruct (m !! a) eqn:E; [|discriminate]. intros [= ->]. eauto.
Qed.

Lemma ref_of_ret_inv {A} (m : gmap addr A) (p : ptr_t) (a : addr) :
  ref_of m p = Ret a -> p = Some a /\ is_Some (m !! a).
Proof.
  unfold ref_of. destruct p as [a'|]; [|discriminate].
  destruct (m !! a') eqn:E; [|discriminate]. intros [= ->]. eauto.
Qed.

Lemma base_of_spec (s : state) (h a : addr) (b : commodity_base_t.t) :
  commodity_t.base_of s h = Ret (a, b) <->
  exists o, objects s !! h = Some o /\ base (fields o) = Some a /\ bases s !! a = Some b.
Proof.
  unfold commodity_t.base_of, commodity_t.this_fields. split.
  - intros H.
    apply bind_ret_inv in H as (c & Hc & H).
    apply fmap_ret_inv in Hc as (o & Ho & ->).
    apply deref_ret_inv in Ho as (h' & [= <-] & Ho).
    apply bind_ret_inv in H as (a' & Ha & H).
    apply ref_of_ret_inv in Ha as (Ha & _).
    apply bind_ret_inv in H as (b' & Hb & [= <- <-]).
    apply deref_ret_inv in Hb as (a'' & [= <-] & Hb).
    eauto.
  - intros (o & Ho & Ha & Hb). simpl. rewrite Ho. simpl. rewrite Ha. simpl.
    rewrite Hb. simpl. rewrite Hb. reflexivity.
Qed.

Lemma mutate_update (s : state) (h : addr) (m : mutation) :
  mutate s h m = commodity_t.update (mutation_fun m) s h.
Proof. destruct m; reflexivity. Qed.

Lemma metadata_mutation (m : mutation) (b : commodity_base_t.t) :
  metadata_of (mutation_fun m b) = apply_mutation m (metadata_of b).
Proof. destruct m; reflexivity. Qed.

Lemma display_metadata_spec (s : state) (h a : addr) (b : commodity_base_t.t) :
  commodity_t.base_of s h = Ret (a, b) ->
  display_metadata s h = Ret (metadata_of b).
Proof.
  intros H. unfold display_metadata, commodity_t.precision, commodity_t.flags,
    commodity_t.name, commodity_t.note, commodity_t.get.
  rewrite H. reflexivity.
Qed.

Lemma mutate_inv (s s' : state) (h : addr) (m : mutation) :
  mutate s h m = Ret s' ->
  exists a b, commodity_t.base_of s h = Ret (a, b) /\
              s' = set_bases <[a := mutation_fun m b]> s.
Proof.
  rewrite mutate_update. unfold commodity_t.update. intros H.
  apply bind_ret_inv in H as ([a b] & Hab & [= <-]). eauto.
Qed.

Lemma mutate_objects (s s' : state) (h : addr) (m : mutation) :
  mutate s h m = Ret s' -> objects s' = objects s.
Proof. intros H. apply mutate_inv in H as (a & b & _ & ->). reflexivity. Qed.

Lemma mutate_all_objects (l : list (addr * mutation)) (s s' : state) :
  mutate_all s l = Ret s' -> objects s' = objects s.
Proof.
  revert s. induction l as [|[h m] l IH]; simpl; intros s H.
  - injection H as <-. reflexivity.
  - apply bind_ret_inv in H as (s1 & H1 & H2).
    rewrite (IH _ H2). eapply mutate_objects; eassumption.
Qed.

(** A mutation through one handle shows through any handle on the same
    base. *)
Lemma mutation_observed (s s' : state) (h1 h2 : addr) (m : mutation)
    (md : N * Z * option string * option string) :
  same_base s h1 h2 ->
  display_metadata s h1 = Ret md ->
  mutate s h1 m = Ret s' ->
  display_metadata s' h2 = Ret (apply_mutation m md).
Proof.
  intros (o1 & o2 & Ho1 & Ho2 & Hb) Hmd Hm.
  apply mutate_inv in Hm as (a & b & Hab & ->).
  rewrite (display_metadata_spec _ _ _ _ Hab) in Hmd. injection Hmd as <-.
  rewrite <- metadata_mutation.
  apply (display_metadata_spec _ _ a).
  apply base_of_spec in Hab as (o & Ho & Ha & Hbs).
  apply base_of_spec. exists o2. simpl. split; [assumption|].
  split; [congruence|]. apply lookup_insert_eq.
Qed.

Lemma same_base_sym (s : state) (h1 h2 : addr) :
  same_base s h1 h2 -> same_base s h2 h1.
Proof. intros (o1 & o2 & H1 & H2 & Hb). exists o2, o1. auto. Qed.

Lemma same_base_objects (s s' : state) (h1 h2 : addr) :
  objects s' = objects s -> same_base s h1 h2 -> same_base s' h1 h2.
Proof. unfold same_base. intros ->. auto. Qed.

Lemma new_annotated_inv (s s1 : state) (a p : addr) (d : annotation_t.t) :
  objects s !! a = None ->
  annotated_commodity_t.new s a (Some p) d = Ret s1 ->
  exists x o,
    objects s1 !! a = Some (Annotated x) /\ objects s1 !! p = Some o /\
    annotated (super x) = true /\ base (super x) = base (fields o) /\
    parent_ (super x) = parent_ (fields o) /\
    ptr x = Some p /\ details x = annotation_t.copy d.
Proof.
  intros Hfresh H. unfold annotated_commodity_t.new in H.
  apply bind_ret_inv in H as (x & Hx & [= <-]).
  unfold annotated_commodity_t.ctor in Hx.
  apply bind_ret_inv in Hx as (c & Hc & [= <-]).
  apply fmap_ret_inv in Hc as (o & Ho & ->).
  apply deref_ret_inv in Ho as (p' & [= <-] & Ho).
  eexists _, o. simpl. rewrite lookup_insert_eq.
  rewrite lookup_insert_ne by congruence.
  repeat split; assumption.
Qed.

(** C9: an annotated commodity built by the constructor holds the base
    pointer of the commodity it was built from, which is its referent,
    and has [annotated] set; this stays so under any mutations of the
    display metadata, and each such mutation made through one of the two
    handles shows through the other. *)
Theorem annotated_shares_base (s s1 : state) (a p : addr) (d : annotation_t.t) :
  objects s !! a = None ->
  annotated_commodity_t.new s a (Some p) d = Ret s1 ->
  forall (l : list (addr * mutation)) (s2 : state),
    mutate_all s1 l = Ret s2 ->
    (exists x o,
        objects s2 !! a = Some (Annotated x) /\ objects s2 !! p = Some o /\
        annotated (super x) = true /\ base (super x) = base (fields o)) /\
    annotated_commodity_t.referent s2 a = Ret p /\
    display_metadata s2 a = display_metadata s2 p /\
    (forall m md s3,
        display_metadata s2 a = Ret md -> mutate s2 a m = Ret s3 ->
        display_metadata s3 p = Ret (apply_mutation m md)) /\
    (forall m md s3,
        display_metadata s2 p = Ret md -> mutate s2 p m = Ret s3 ->
        display_metadata s3 a = Ret (apply_mutation m md)).
Proof.
  intros Hfresh Hnew l s2 Hl.
  destruct (new_annotated_inv _ _ _ _ _ Hfresh Hnew)
    as (x & o & Ha & Hp & Hann & Hbase & _ & Hptr & _).
  pose proof (mutate_all_objects _ _ _ Hl) as Hobj.
  assert (Hsame : same_base s2 a p).
  { exists (Annotated x), o. rewrite Hobj. auto. }
  split; [|split; [|split; [|split]]].
  - exists x, o. rewrite Hobj. auto.
  - unfold annotated_commodity_t.referent. simpl. rewrite Hobj, Ha. simpl.
    rewrite Hptr. simpl. rewrite Hp. reflexivity.
  - unfold display_metadata, commodity_t.precision, commodity_t.flags,
      commodity_t.name, commodity_t.note, commodity_t.get.
    assert (Hb : commodity_t.base_of s2 a = commodity_t.base_of s2 p).
    { unfold commodity_t.base_of, commodity_t.this_fields. simpl.
      rewrite Hobj, Ha, Hp. simpl. rewrite Hbase. reflexivity. }
    rewrite Hb. reflexivity.
  - intros m md s3. apply mutation_observed. assumption.
  - intros m md s3. apply mutation_observed. apply same_base_sym. assumption.
Qed.

Lemma annotated_shares_base_witness :
  exists s1 s2,
    annotated_commodity_t.new sample.st 9%positive (Some sample.usd)
                              annotation_t.ctor0 = Ret s1 /\
    commodity_t.set_precision s1 9%positive 4%N = Ret s2 /\
    commodity_t.precision s2 sample.usd = Ret 4%N /\
    annotated_commodity_t.referent s1 9%positive = Ret sample.usd.
Proof.
  eexists. eexists.
  split; [reflexivity|].
  split; [reflexivity|].
  destruct (annotated_shares_base sample.st _ 9%positive sample.usd annotation_t.ctor0
              eq_refl eq_refl [] _ eq_refl)
    as (_ & Href & _ & Hobs & _).
  split; [|exact Href].
  pose proof (Hobs (SetPrecision 4%N) _ _ eq_refl eq_refl) as H.
  apply bind_ret_inv in H as (p & Hp & H).
  unfold display_metadata in H.
  apply bind_ret_inv in H as (f & _ & H).
  apply bind_ret_inv in H as (n & _ & H).
  apply bind_ret_inv in H as (o & _ & H).
  injection H as ->. exact Hp.
Defined.

(** ** The quote signal *)

Section quotes.

Context {World : Type}.
Implicit Types (l : list (@slot World quote_args (option amount_t))).

Lemma get_quote_cons f l a w :
  get_quote (f :: l) a w =
  match (f a w).1 with
  | Some _ => f a w
  | None => get_quote l a (f a w).2
  end.
Proof.
  unfold get_quote. simpl. destruct (f a w) as [[v|] w']; reflexivity.
Qed.

(** The two dereferences of one round are one call of the slot. *)
Lemma dereference_twice {Args T : Type} (a : Args)
    (it : @slot_call_iterator World Args T) (w : World) :
  let d1 := dereference a it w in
  dereference a d1.1.2 d1.2 = d1.
Proof.
  unfold dereference. destruct it as [f [v|]]; simpl; reflexivity.
Qed.

Lemma get_quote_skip l1 l a w w1 :
  all_none a l1 w = Some w1 -> get_quote (l1 ++ l) a w = get_quote l a w1.
Proof.
  revert w. induction l1 as [|f l1 IH]; intros w H; simpl in H.
  - injection H as <-. reflexivity.
  - change ((f :: l1) ++ l) with (f :: (l1 ++ l)).
    rewrite get_quote_cons. destruct ((f a w).1); [discriminate|]. auto.
Qed.

Lemma get_quote_cases l a w :
  (exists l1 f l2 w1 v w2,
      l = l1 ++ f :: l2 /\ all_none a l1 w = Some w1 /\ f a w1 = (Some v, w2)) \/
  (exists w', all_none a l w = Some w').
Proof.
  revert w. induction l as [|f l IH]; intros w.
  - right. exists w. reflexivity.
  - destruct (f a w) as [[v|] w'] eqn:E.
    + left. exists [], f, l, w, v, w'. auto.
    + destruct (IH w') as [(l1 & g & l2 & w1 & v & w2 & -> & Hn & Hg) | (w2 & Hn)].
      * left. exists (f :: l1), g, l2, w1, v, w2. simpl. rewrite E. auto.
      * right. exists w2. simpl. rewrite E. assumption.
Qed.


End quotes.


(** ** Rounding *)

Lemma pow10_0 : BigRational.pow10 0 = 1.
Proof. reflexivity. Qed.

Lemma rescale_to_idempotent (p : N) (q : bigint_t) :
  BigRational.rescale_to p (BigRational.rescale_to p q) = BigRational.rescale_to p q.
Proof.
  unfold BigRational.rescale_to at 1.
  assert (Hp : prec (BigRational.rescale_to p q) = p).
  { unfold BigRational.rescale_to. destruct (p <? prec q)%N; reflexivity. }
  rewrite Hp, N.ltb_irrefl, N.sub_diag, pow10_0, Z.mul_1_r.
  rewrite <- Hp at 2. destruct (BigRational.rescale_to p q); reflexivity.
Qed.

Lemma round_prec_idempotent (a : amount_t) (p : N) :
  round_prec (round_prec a p) p = round_prec a p.
Proof.
  unfold round_prec. simpl. destruct (quantity a) as [q|]; simpl; [|reflexivity].
  rewrite rescale_to_idempotent. reflexivity.
Qed.

Lemma has_commodity_ext (s : state) (a b : amount_t) :
  commodity_ a = commodity_ b -> has_commodity s a = has_commodity s b.
Proof. unfold has_commodity. intros ->. reflexivity. Qed.

Lemma commodity_ext (s : state) (a b : amount_t) :
  commodity_ a = commodity_ b -> commodity s a = commodity s b.
Proof.
  intros H. unfold commodity. rewrite (has_commodity_ext s a b H), H. reflexivity.
Qed.

Lemma has_commodity_copy (s : state) (a : amount_t) :
  has_commodity s a = Ret false -> has_commodity s (copy_ctor a) = Ret false.
Proof.
  unfold copy_ctor. destruct (quantity a); [|reflexivity].
  intros H. rewrite <- H. apply has_commodity_ext. reflexivity.
Qed.

Lemma copy_ctor_id (a : amount_t) :
  is_Some (quantity a) \/ commodity_ a = None -> copy_ctor a = a.
Proof.
  unfold copy_ctor, _copy. destruct a as [[q|] c]; simpl.
  - reflexivity.
  - intros [[? [=]] | ->]. reflexivity.
Qed.

(** C7: rounding to a precision twice is rounding to it once; [round()]
    is [round(precision)] at the display precision of the amount's
    commodity, and doing it again changes nothing; on an amount without a
    commodity [round()] gives the copy of the amount, which has the same
    quantity, no commodity either, and is the amount itself unless that
    one had a commodity pointer and no quantity. *)
Theorem round_idempotent (s : state) (a : amount_t) :
  (forall p, round_prec (round_prec a p) p = round_prec a p) /\
  (forall c p,
      has_commodity s a = Ret true -> commodity s a = Ret c ->
      commodity_t.precision s c = Ret p ->
      round s a = Ret (round_prec a p) /\
      round s (round_prec a p) = Ret (round_prec a p)) /\
  (has_commodity s a = Ret false ->
   round s a = Ret (copy_ctor a) /\
   quantity (copy_ctor a) = quantity a /\
   has_commodity s (copy_ctor a) = Ret false /\
   commodity s (copy_ctor a) = commodity s a /\
   (is_Some (quantity a) \/ commodity_ a = None -> copy_ctor a = a)).
Proof.
  split; [intros p; apply round_prec_idempotent|]. split.
  - intros c p Hh Hc Hp.
    assert (Hr : forall b, commodity_ b = commodity_ a ->
                           round s b = Ret (round_prec b p)).
    { intros b Hb. unfold round.
      rewrite (has_commodity_ext s b a Hb), Hh. simpl.
      rewrite (commodity_ext s b a Hb), Hc. simpl. rewrite Hp. reflexivity. }
    split; [apply Hr; reflexivity|].
    rewrite (Hr (round_prec a p) eq_refl), round_prec_idempotent. reflexivity.
  - intros Hh. split; [unfold round; rewrite Hh; reflexivity|].
    split; [unfold copy_ctor; destruct (quantity a) eqn:E; simpl; congruence|].
    pose proof (has_commodity_copy s a Hh) as Hc.
    split; [assumption|]. split; [|apply copy_ctor_id].
    unfold commodity. rewrite Hh, Hc. reflexivity.
Qed.

Lemma round_idempotent_witness :
  round sample.st sample.usd100_005
  = Ret (mk_amount (Some (mk_bigint 10000 2)) (Some sample.usd)) /\
  round sample.st (mk_amount (Some (mk_bigint 10000 2)) (Some sample.usd))
  = Ret (mk_amount (Some (mk_bigint 10000 2)) (Some sample.usd)) /\
  round sample.st sample.five = Ret sample.five.
Proof.
  destruct (round_idempotent sample.st sample.usd100_005) as (_ & H & _).
  destruct (H sample.usd 2%N eq_refl eq_refl eq_refl) as (H1 & H2).
  split; [exact H1|]. split; [exact H2|].
  destruct (round_idempotent sample.st sample.five) as (_ & _ & H3).
  destruct (H3 eq_refl) as (H4 & _). exact H4.
Defined.

(** ** Arithmetic and comparison *)

Lemma is_null_has_commodity (s : state) (a : amount_t) :
  has_commodity s a = Ret true -> is_null s a = Ret false.
Proof.
  intros H. unfold is_null. destruct (quantity a); [reflexivity|].
  rewrite H. reflexivity.
Qed.

Lemma is_null_cases (s : state) (a : amount_t) (h : bool) :
  has_commodity s a = Ret h ->
  is_null s a = Ret (match quantity a with Some _ => false | None => negb h end).
Proof.
  intros H. unfold is_null. destruct (quantity a); [reflexivity|].
  rewrite H. reflexivity.
Qed.

Lemma scaled_self (q : bigint_t) : BigRational.scaled q (prec q) = val q.
Proof.
  unfold BigRational.scaled. rewrite N.sub_diag, pow10_0. apply Z.mul_1_r.
Qed.

Lemma compare_refl (q : bigint_t) : BigRational.compare q q = 0.
Proof. unfold BigRational.compare. rewrite Z.compare_refl. reflexivity. Qed.

Lemma compare_sub_self_zero (q : bigint_t) :
  BigRational.compare (BigRational.sub q q) (mk_bigint 0 0) = 0.
Proof.
  unfold BigRational.compare, BigRational.sub, BigRational.scaled. simpl.
  rewrite Z.sub_diag, !Z.mul_0_l. reflexivity.
Qed.

Section arithmetic_facts.

Variable annotated_eq : state -> addr -> addr -> res bool.
Variable find_or_create :
  state -> addr -> addr -> annotation_t.t -> res (addr * state).

(** Between commodities that are both non-null and differ, the outcome
    is that of reconciling them. *)
Lemma additive_differ op (s : state) (a b : amount_t) :
  has_commodity s a = Ret true -> has_commodity s b = Ret true ->
  commodities_differ annotated_eq s a b = Ret true ->
  additive annotated_eq find_or_create op s a b
  = reconcile annotated_eq find_or_create op s a b.
Proof.
  intros Ha Hb Hd. unfold additive.
  rewrite (is_null_has_commodity _ _ Ha), (is_null_has_commodity _ _ Hb). simpl.
  rewrite Ha, Hb. simpl. rewrite Hd. reflexivity.
Qed.

Lemma reconcile_inv op (s s1 s2 : state) (a b a' b' : amount_t) (d : bool) :
  strip_annotations_default find_or_create s a = Ret (a', s1) ->
  strip_annotations_default find_or_create s1 b = Ret (b', s2) ->
  commodities_differ annotated_eq s2 a' b' = Ret d ->
  reconcile annotated_eq find_or_create op s a b
  = if d then Throw IncompatibleCommodities
    else Ret (mk_amount (Some (op (value_of a) (value_of b))) (commodity_ a'), s2).
Proof.
  intros Hsa Hsb Hd. unfold reconcile. rewrite Hsa. simpl.
  rewrite Hsb. simpl. rewrite Hd. reflexivity.
Qed.

Lemma additive_reconciled op (s s1 s2 : state) (a b a' b' : amount_t) (d : bool) :
  has_commodity s a = Ret true -> has_commodity s b = Ret true ->
  commodities_differ annotated_eq s a b = Ret true ->
  strip_annotations_default find_or_create s a = Ret (a', s1) ->
  strip_annotations_default find_or_create s1 b = Ret (b', s2) ->
  commodities_differ annotated_eq s2 a' b' = Ret d ->
  additive annotated_eq find_or_create op s a b
  = if d then Throw IncompatibleCommodities
    else Ret (mk_amount (Some (op (value_of a) (value_of b))) (commodity_ a'), s2).
Proof.
  intros Ha Hb Hd Hsa Hsb Hd'. rewrite (additive_differ op s a b Ha Hb Hd).
  apply (reconcile_inv op s s1 s2 a b a' b' d Hsa Hsb Hd').
Qed.

(** An amount whose commodity has no lot details is stripped to itself. *)
Lemma strip_plain (s : state) (a : amount_t) (c : addr) (f : commodity_fields) :
  commodity s a = Ret c -> objects s !! c = Some (Plain f) ->
  strip_annotations_default find_or_create s a = Ret (a, s).
Proof.
  intros Hc Ho. unfold strip_annotations_default, strip_annotations.
  destruct (has_commodity s a) as [[|]| |] eqn:Hh;
    try (unfold commodity in Hc; rewrite Hh in Hc; discriminate);
    simpl; [|reflexivity].
  rewrite Hc. simpl. rewrite Ho. reflexivity.
Qed.

(** With no lot detail kept, an amount whose commodity is annotated is
    stripped to the referent. *)
Lemma strip_to_referent (s : state) (a : amount_t) (c r : addr)
    (x : annotated_fields) :
  keep_price s = false -> keep_date s = false -> keep_tag s = false ->
  has_commodity s a = Ret true ->
  commodity_ a = Some c -> objects s !! c = Some (Annotated x) ->
  ptr x = Some r -> is_Some (objects s !! r) ->
  strip_annotations_default find_or_create s a = Ret (set_commodity a r, s).
Proof.
  intros Hp Hd Ht Hh Hc Ho Hr [o' Ho'].
  unfold strip_annotations_default, strip_annotations.
  rewrite Hp, Hd, Ht, Hh. simpl.
  unfold commodity. rewrite Hh. simpl. rewrite Hc. simpl. rewrite Ho. simpl.
  unfold annotated_commodity_t.referent. simpl. rewrite Ho. simpl.
  rewrite Hr. simpl. rewrite Ho'. reflexivity.
Qed.

Lemma additive_adopts op (s : state) (a b : amount_t) (ha hb : bool) :
  has_commodity s a = Ret ha -> has_commodity s b = Ret hb ->
  ha && hb = false ->
  exists r, additive annotated_eq find_or_create op s a b = Ret (r, s) /\
            (ha = true -> commodity_ r = commodity_ a) /\
            (hb = true -> commodity_ r = commodity_ b).
Proof.
  intros Ha Hb Hab. unfold additive.
  rewrite (is_null_cases _ _ _ Ha), (is_null_cases _ _ _ Hb). simpl.
  destruct (quantity b) as [qb|] eqn:Eb, (quantity a) as [qa|] eqn:Ea,
           ha, hb; try discriminate; simpl;
    try rewrite Ha; try rewrite Hb; simpl;
    eexists; (split; [reflexivity|]); split; intros; try discriminate; reflexivity.
Qed.

(** A plain commodity is equal to itself, whatever the override does. *)
Lemma plain_commodity_self_equal (s : state) (c : addr) (f : commodity_fields) :
  objects s !! c = Some (Plain f) -> annotated f = false ->
  commodity_t.operator_eq annotated_eq s c c = Ret true.
Proof.
  intros Hc Hf. unfold commodity_t.operator_eq. simpl. rewrite Hc. simpl.
  rewrite Hf. rewrite bool_decide_eq_true_2 by reflexivity. reflexivity.
Qed.

Lemma plain_commodity_not_differ (s : state) (a : amount_t) (c : addr)
    (f : commodity_fields) :
  commodity s a = Ret c -> objects s !! c = Some (Plain f) -> annotated f = false ->
  commodities_differ annotated_eq s a a = Ret false.
Proof.
  intros Ha Hc Hf. unfold commodities_differ, commodity_t.operator_ne.
  rewrite Ha. simpl. rewrite (plain_commodity_self_equal s c f Hc Hf). reflexivity.
Qed.

(** An amount in a plain commodity and any amount given that commodity
    have equal commodities. *)
Lemma referent_not_differ (s : state) (a b : amount_t) (c : addr)
    (f : commodity_fields) :
  has_commodity s a = Ret true -> commodity_ a = Some c ->
  objects s !! c = Some (Plain f) -> annotated f = false ->
  commodities_differ annotated_eq s a (set_commodity b c) = Ret false /\
  commodities_differ annotated_eq s (set_commodity b c) a = Ret false.
Proof.
  intros Hh Hc Ho Hf.
  assert (Ha : commodity s a = Ret c).
  { unfold commodity. rewrite Hh. simpl. rewrite Hc. simpl. rewrite Ho. reflexivity. }
  assert (Hb : commodity s (set_commodity b c) = Ret c).
  { rewrite <- Ha. apply commodity_ext. simpl. congruence. }
  unfold commodities_differ, commodity_t.operator_ne. rewrite Ha, Hb. simpl.
  rewrite (plain_commodity_self_equal s c f Ho Hf). split; reflexivity.
Qed.

(** C1: adding or subtracting amounts whose commodities are both
    non-null and differ fails with [IncompatibleCommodities] whenever
    the commodities still differ once each operand is stripped of the
    lot details that are not kept, and so whenever neither commodity is
    annotated; when the stripped commodities are equal, the operation
    returns the sum or difference in the left operand's stripped
    commodity, as for an amount in a plain commodity and one in an
    annotated variant of it while no lot detail is kept.  When exactly
    one operand has the null commodity the operation returns, and the
    result has the commodity of the other operand. *)
Theorem incompatible_commodities (s : state) (a b : amount_t) :
  (has_commodity s a = Ret true -> has_commodity s b = Ret true ->
   commodities_differ annotated_eq s a b = Ret true ->
   (forall a' b' s1 s2,
      strip_annotations_default find_or_create s a = Ret (a', s1) ->
      strip_annotations_default find_or_create s1 b = Ret (b', s2) ->
      (commodities_differ annotated_eq s2 a' b' = Ret true ->
       operator_plus_eq annotated_eq find_or_create s a b
       = Throw IncompatibleCommodities /\
       operator_minus_eq annotated_eq find_or_create s a b
       = Throw IncompatibleCommodities) /\
      (commodities_differ annotated_eq s2 a' b' = Ret false ->
       operator_plus_eq annotated_eq find_or_create s a b
       = Ret (mk_amount (Some (BigRational.add (value_of a) (value_of b)))
                        (commodity_ a'), s2) /\
       operator_minus_eq annotated_eq find_or_create s a b
       = Ret (mk_amount (Some (BigRational.sub (value_of a) (value_of b)))
                        (commodity_ a'), s2))) /\
   (forall ca cb fa fb,
      commodity s a = Ret ca -> commodity s b = Ret cb ->
      objects s !! ca = Some (Plain fa) -> objects s !! cb = Some (Plain fb) ->
      operator_plus_eq annotated_eq find_or_create s a b
      = Throw IncompatibleCommodities /\
      operator_minus_eq annotated_eq find_or_create s a b
      = Throw IncompatibleCommodities) /\
   (forall c f x y,
      keep_price s = false -> keep_date s = false -> keep_tag s = false ->
      commodity_ a = Some c -> objects s !! c = Some (Plain f) ->
      annotated f = false ->
      commodity_ b = Some x -> objects s !! x = Some (Annotated y) ->
      ptr y = Some c ->
      (operator_plus_eq annotated_eq find_or_create s a b
       = Ret (mk_amount (Some (BigRational.add (value_of a) (value_of b)))
                        (Some c), s) /\
       operator_minus_eq annotated_eq find_or_create s a b
       = Ret (mk_amount (Some (BigRational.sub (value_of a) (value_of b)))
                        (Some c), s)) /\
      (commodities_differ annotated_eq s b a = Ret true ->
       operator_plus_eq annotated_eq find_or_create s b a
       = Ret (mk_amount (Some (BigRational.add (value_of b) (value_of a)))
                        (Some c), s) /\
       operator_minus_eq annotated_eq find_or_create s b a
       = Ret (mk_amount (Some (BigRational.sub (value_of b) (value_of a)))
                        (Some c), s)))) /\
  (has_commodity s a = Ret true -> has_commodity s b = Ret false ->
   exists r1 r2,
     operator_plus_eq annotated_eq find_or_create s a b = Ret (r1, s) /\
     operator_minus_eq annotated_eq find_or_create s a b = Ret (r2, s) /\
     commodity_ r1 = commodity_ a /\ commodity_ r2 = commodity_ a) /\
  (has_commodity s a = Ret false -> has_commodity s b = Ret true ->
   exists r1 r2,
     operator_plus_eq annotated_eq find_or_create s a b = Ret (r1, s) /\
     operator_minus_eq annotated_eq find_or_create s a b = Ret (r2, s) /\
     commodity_ r1 = commodity_ b /\ commodity_ r2 = commodity_ b).
Proof.
  split; [|split].
  - intros Ha Hb Hd. split; [|split].
    + intros a' b' s1 s2 Hsa Hsb.
      split; intros Hd'; split;
        apply (additive_reconciled _ s s1 s2 a b a' b' _ Ha Hb Hd Hsa Hsb Hd').
    + intros ca cb fa fb Hca Hcb Hoa Hob.
      pose proof (strip_plain s a ca fa Hca Hoa) as Hsa.
      pose proof (strip_plain s b cb fb Hcb Hob) as Hsb.
      split; apply (additive_reconciled _ s s s a b a b true Ha Hb Hd Hsa Hsb Hd).
    + intros c f x y Hkp Hkd Hkt Hc Ho Hf Hx Hy Hptr.
      assert (Hca : commodity s a = Ret c).
      { unfold commodity. rewrite Ha. simpl. rewrite Hc. simpl. rewrite Ho.
        reflexivity. }
      pose proof (strip_plain s a c f Hca Ho) as Hsa.
      pose proof (strip_to_referent s b x c y Hkp Hkd Hkt Hb Hx Hy Hptr
                    (ex_intro _ _ Ho)) as Hsb.
      destruct (referent_not_differ s a b c f Ha Hc Ho Hf) as (Hab & Hba).
      rewrite <- Hc. split.
      * split; apply (additive_reconciled _ s s s a b a (set_commodity b c) false
                        Ha Hb Hd Hsa Hsb Hab).
      * intros Hd2. rewrite Hc.
        split; apply (additive_reconciled _ s s s b a (set_commodity b c) a false
                        Hb Ha Hd2 Hsb Hsa Hba).
  - intros Ha Hb.
    destruct (additive_adopts BigRational.add s a b _ _ Ha Hb eq_refl) as (r1 & H1 & C1 & _).
    destruct (additive_adopts BigRational.sub s a b _ _ Ha Hb eq_refl) as (r2 & H2 & C2 & _).
    exists r1, r2. auto.
  - intros Ha Hb.
    destruct (additive_adopts BigRational.add s a b _ _ Ha Hb eq_refl) as (r1 & H1 & _ & C1).
    destruct (additive_adopts BigRational.sub s a b _ _ Ha Hb eq_refl) as (r2 & H2 & _ & C2).
    exists r1, r2. auto.
Qed.

Lemma additive_null_right op (s : state) (a n : amount_t) :
  is_null s n = Ret true -> returns (is_null s a) ->
  additive annotated_eq find_or_create op s a n = Ret (a, s).
Proof.
  intros Hn [x Ha]. unfold additive. rewrite Ha, Hn. reflexivity.
Qed.

Lemma additive_null_left op (s : state) (a n : amount_t) :
  is_null s n = Ret true -> is_null s a = Ret false ->
  additive annotated_eq find_or_create op s n a = Ret (a, s).
Proof.
  intros Hn Ha. unfold additive. rewrite Ha, Hn. simpl.
  destruct a; reflexivity.
Qed.

Lemma differ_self_has_commodity (s : state) (a : amount_t) :
  commodities_differ annotated_eq s a a = Ret false -> returns (has_commodity s a).
Proof.
  unfold commodities_differ, commodity. intros H.
  destruct (has_commodity s a) as [h| |]; try discriminate. exists h. reflexivity.
Qed.

Lemma is_null_returns (s : state) (a : amount_t) :
  returns (has_commodity s a) -> returns (is_null s a).
Proof. intros [h H]. rewrite (is_null_cases _ _ _ H). eexists. reflexivity. Qed.

Lemma compare_spec_self (s : state) (a : amount_t) :
  commodities_differ annotated_eq s a a = Ret false ->
  compare_spec annotated_eq s a a = Ret 0.
Proof.
  intros Hd. destruct (differ_self_has_commodity s a Hd) as [h Hh].
  unfold compare_spec. rewrite Hh. simpl.
  destruct h; simpl; [rewrite Hd; simpl|]; rewrite compare_refl; reflexivity.
Qed.

Lemma minus_self_zero (s : state) (a : amount_t) :
  commodities_differ annotated_eq s a a = Ret false ->
  exists r, operator_minus_eq annotated_eq find_or_create s a a = Ret (r, s) /\
            operator_eq_T (compare_spec annotated_eq) s r (amount_of_long 0) = Ret true.
Proof.
  intros Hd. destruct (differ_self_has_commodity s a Hd) as [h Hh].
  assert (Hcmp : forall r, commodity_ r = commodity_ a ->
                   BigRational.compare (value_of r) (mk_bigint 0 0) = 0 ->
                   operator_eq_T (compare_spec annotated_eq) s r (amount_of_long 0)
                   = Ret true).
  { intros r Hr Hv. unfold operator_eq_T, compare_spec.
    rewrite (has_commodity_ext s r a Hr), Hh.
    cbn -[BigRational.compare value_of andb].
    rewrite andb_false_r. cbn -[BigRational.compare value_of].
    change (value_of (amount_of_long 0)) with (mk_bigint 0 0).
    rewrite Hv. reflexivity. }
  unfold operator_minus_eq, additive.
  rewrite (is_null_cases _ _ _ Hh). simpl.
  destruct (quantity a) as [q|] eqn:Eq, h; simpl;
    try (rewrite Hh; simpl); try (rewrite Hd; simpl);
    eexists; (split; [reflexivity|]); apply Hcmp; try reflexivity;
    unfold value_of; simpl; rewrite ?Eq; simpl;
    try apply compare_sub_self_zero; reflexivity.
Qed.

(** C2: a null amount on the right of [+=], [-=] or [*=] leaves the
    left operand [a] as it is; on the left it gives [a] when [a] is not
    null, and a null amount again when it is; so [a + null == a], and
    [a - a] compares equal to [0], for every [a] whose commodity is
    equal to itself.  None of these changes the store. *)
Theorem null_is_identity (s : state) (a n : amount_t) :
  is_null s n = Ret true ->
  returns (is_null s a) ->
  (operator_plus_eq annotated_eq find_or_create s a n = Ret (a, s) /\
   operator_minus_eq annotated_eq find_or_create s a n = Ret (a, s) /\
   operator_times_eq s a n = Ret a) /\
  (is_null s a = Ret false ->
   operator_plus_eq annotated_eq find_or_create s n a = Ret (a, s) /\
   operator_minus_eq annotated_eq find_or_create s n a = Ret (a, s) /\
   operator_times_eq s n a = Ret a) /\
  (is_null s a = Ret true ->
   operator_plus_eq annotated_eq find_or_create s n a = Ret (n, s) /\
   operator_minus_eq annotated_eq find_or_create s n a = Ret (n, s) /\
   operator_times_eq s n a = Ret n) /\
  (commodities_differ annotated_eq s a a = Ret false ->
   (forall r s', operator_plus_eq annotated_eq find_or_create s a n = Ret (r, s') ->
                 amount_operator_eq annotated_eq s' r a = Ret true) /\
   (exists r, operator_minus_eq annotated_eq find_or_create s a a = Ret (r, s) /\
              operator_eq_T (compare_spec annotated_eq) s r (amount_of_long 0)
              = Ret true)).
Proof.
  intros Hn Ha.
  split; [|split; [|split]].
  - split; [|split]; try (apply additive_null_right; assumption).
    destruct Ha as [x Ha]. unfold operator_times_eq. rewrite Ha, Hn. reflexivity.
  - intros Hna. split; [|split]; try (apply additive_null_left; assumption).
    unfold operator_times_eq. rewrite Hna, Hn. simpl. destruct a; reflexivity.
  - intros Hna. split; [|split].
    + apply additive_null_right; [assumption | exists true; assumption].
    + apply additive_null_right; [assumption | exists true; assumption].
    + unfold operator_times_eq. rewrite Hn, Hna. reflexivity.
  - intros Hd. split.
    + intros r s' Hr. unfold operator_plus_eq in Hr.
      rewrite (additive_null_right _ s a n Hn Ha) in Hr. injection Hr as <- <-.
      unfold amount_operator_eq, operator_eq. rewrite Hd. simpl.
      rewrite (compare_spec_self s a Hd). reflexivity.
    + apply minus_self_zero. assumption.
Qed.

Lemma div_zero_numerator (a b : bigint_t) :
  val b = 0 -> BigRational.div a b = Throw DivideByZero.
Proof. intros H. unfold BigRational.div. rewrite H. reflexivity. Qed.

Lemma value_of_null (s : state) (n : amount_t) :
  is_null s n = Ret true -> val (value_of n) = 0.
Proof.
  intros Hn. apply is_null_true_quantity in Hn. unfold value_of. rewrite Hn.
  reflexivity.
Qed.


End arithmetic_facts.

Section equality_facts.

Variable annotated_eq : state -> addr -> addr -> res bool.
Variable compare : state -> amount_t -> amount_t -> res Z.

Lemma compare_spec_incompatible (s : state) (a b : amount_t) :
  has_commodity s a = Ret true -> has_commodity s b = Ret true ->
  commodities_differ annotated_eq s a b = Ret true ->
  compare_spec annotated_eq s a b = Throw IncompatibleCommodities.
Proof.
  intros Ha Hb Hd. unfold compare_spec. rewrite Ha, Hb. simpl. rewrite Hd.
  reflexivity.
Qed.

(** C4, as the code and the spec have it: on amounts whose commodities
    differ [operator==] returns [false] without calling [compare], which
    on such a pair fails with [IncompatibleCommodities] when both
    commodities are non-null; on amounts whose commodities are equal
    [operator==] is the test [compare(amt) == 0]. *)
Theorem operator_eq_commodities (s : state) (a b : amount_t) :
  (commodities_differ annotated_eq s a b = Ret true ->
   operator_eq annotated_eq compare s a b = Ret false /\
   (has_commodity s a = Ret true -> has_commodity s b = Ret true ->
    compare_spec annotated_eq s a b = Throw IncompatibleCommodities)) /\
  (commodities_differ annotated_eq s a b = Ret false ->
   operator_eq annotated_eq compare s a b = (r ← compare s a b; Ret (r =? 0)) /\
   (operator_eq annotated_eq compare s a b = Ret true <-> compare s a b = Ret 0)).
Proof.
  split.
  - intros Hd. split.
    + unfold operator_eq. rewrite Hd. reflexivity.
    + intros Ha Hb. apply compare_spec_incompatible; assumption.
  - intros Hd.
    assert (He : operator_eq annotated_eq compare s a b
                 = (r ← compare s a b; Ret (r =? 0))).
    { unfold operator_eq. rewrite Hd. reflexivity. }
    split; [exact He|]. rewrite He.
    destruct (compare s a b) as [r| |]; simpl; split; intros H; try discriminate.
    + injection H as H. apply Z.eqb_eq in H. congruence.
    + injection H as ->. reflexivity.
Qed.

End equality_facts.

(** C4 as stated does not hold: [$5.00] and a plain [5] have distinct
    commodities, and comparing them returns [0] instead of failing. *)
Lemma compare_distinct_commodities_returns :
  commodities_differ sample.annotated_eq sample.st sample.usd5 sample.five = Ret true /\
  amount_operator_eq sample.annotated_eq sample.st sample.usd5 sample.five = Ret false /\
  compare_spec sample.annotated_eq sample.st sample.usd5 sample.five = Ret 0.
Proof. repeat split. Qed.

Lemma operator_eq_commodities_witness :
  (amount_operator_eq sample.annotated_eq sample.st sample.usd5 sample.eur1 = Ret false /\
   compare_spec sample.annotated_eq sample.st sample.usd5 sample.eur1
   = Throw IncompatibleCommodities) /\
  (amount_operator_eq sample.annotated_eq sample.st sample.usd5 sample.usd5 = Ret true
   <-> compare_spec sample.annotated_eq sample.st sample.usd5 sample.usd5 = Ret 0).
Proof.
  split.
  - destruct (operator_eq_commodities sample.annotated_eq
                (compare_spec sample.annotated_eq) sample.st sample.usd5 sample.eur1)
      as (H & _).
    destruct (H eq_refl) as (H1 & H2). split; [exact H1 | exact (H2 eq_refl eq_refl)].
  - destruct (operator_eq_commodities sample.annotated_eq
                (compare_spec sample.annotated_eq) sample.st sample.usd5 sample.usd5)
      as (_ & H).
    destruct (H eq_refl) as (_ & H2). exact H2.
Defined.

(** C1 as stated does not hold: [10 AAPL] and [10 AAPL {$20}] have
    commodities that are both non-null and differ, and while
    [keep_price] is false, as it is by default, their sum is [20 AAPL]
    and their difference [0 AAPL], in either order. *)
Lemma plus_distinct_commodities_returns :
  has_commodity sample.st sample.aapl10 = Ret true /\
  has_commodity sample.st sample.aapl_lot10 = Ret true /\
  commodities_differ sample.annotated_eq sample.st sample.aapl10 sample.aapl_lot10
  = Ret true /\
  commodities_differ sample.annotated_eq sample.st sample.aapl_lot10 sample.aapl10
  = Ret true /\
  keep_price sample.st = false /\
  operator_plus_eq sample.annotated_eq sample.find_or_create
                   sample.st sample.aapl10 sample.aapl_lot10
  = Ret (mk_amount (Some (mk_bigint 20 0)) (Some sample.aapl), sample.st) /\
  operator_plus_eq sample.annotated_eq sample.find_or_create
                   sample.st sample.aapl_lot10 sample.aapl10
  = Ret (mk_amount (Some (mk_bigint 20 0)) (Some sample.aapl), sample.st) /\
  operator_minus_eq sample.annotated_eq sample.find_or_create
                    sample.st sample.aapl10 sample.aapl_lot10
  = Ret (mk_amount (Some (mk_bigint 0 0)) (Some sample.aapl), sample.st).
Proof. repeat split. Qed.

Lemma incompatible_commodities_witness :
  (operator_plus_eq sample.annotated_eq sample.find_or_create
                    sample.st sample.usd5 sample.eur1
   = Throw IncompatibleCommodities /\
   operator_minus_eq sample.annotated_eq sample.find_or_create
                     sample.st sample.usd5 sample.eur1
   = Throw IncompatibleCommodities) /\
  (operator_plus_eq sample.annotated_eq sample.find_or_create
                    (set_keep true false false sample.st)
                    sample.aapl10 sample.aapl_lot10
   = Throw IncompatibleCommodities /\
   operator_minus_eq sample.annotated_eq sample.find_or_create
                     (set_keep true false false sample.st)
                     sample.aapl10 sample.aapl_lot10
   = Throw IncompatibleCommodities) /\
  (operator_plus_eq sample.annotated_eq sample.find_or_create
                    sample.st sample.aapl10 sample.aapl_lot10
   = Ret (mk_amount (Some (mk_bigint 20 0)) (Some sample.aapl), sample.st) /\
   operator_minus_eq sample.annotated_eq sample.find_or_create
                     sample.st sample.aapl10 sample.aapl_lot10
   = Ret (mk_amount (Some (mk_bigint 0 0)) (Some sample.aapl), sample.st)) /\
  (exists r1 r2,
      operator_plus_eq sample.annotated_eq sample.find_or_create
                       sample.st sample.usd5 sample.five = Ret (r1, sample.st) /\
      operator_minus_eq sample.annotated_eq sample.find_or_create
                        sample.st sample.usd5 sample.five = Ret (r2, sample.st) /\
      commodity_ r1 = Some sample.usd /\ commodity_ r2 = Some sample.usd) /\
  (exists r1 r2,
      operator_plus_eq sample.annotated_eq sample.find_or_create
                       sample.st sample.five sample.usd5 = Ret (r1, sample.st) /\
      operator_minus_eq sample.annotated_eq sample.find_or_create
                        sample.st sample.five sample.usd5 = Ret (r2, sample.st) /\
      commodity_ r1 = Some sample.usd /\ commodity_ r2 = Some sample.usd).
Proof.
  split; [|split; [|split; [|split]]].
  - destruct (proj1 (incompatible_commodities sample.annotated_eq
                       sample.find_or_create sample.st sample.usd5 sample.eur1)
                eq_refl eq_refl eq_refl) as (_ & H & _).
    exact (H sample.usd sample.eur _ _ eq_refl eq_refl eq_refl eq_refl).
  - destruct (proj1 (incompatible_commodities sample.annotated_eq
                       sample.find_or_create (set_keep true false false sample.st)
                       sample.aapl10 sample.aapl_lot10)
                eq_refl eq_refl eq_refl) as (H & _).
    exact (proj1 (H _ _ _ _ eq_refl eq_refl) eq_refl).
  - destruct (proj1 (incompatible_commodities sample.annotated_eq
                       sample.find_or_create sample.st
                       sample.aapl10 sample.aapl_lot10)
                eq_refl eq_refl eq_refl) as (_ & _ & H).
    exact (proj1 (H sample.aapl _ sample.aapl_lot _ eq_refl eq_refl eq_refl
                    eq_refl eq_refl eq_refl eq_refl eq_refl eq_refl)).
  - exact (proj1 (proj2 (incompatible_commodities sample.annotated_eq
                           sample.find_or_create sample.st
                           sample.usd5 sample.five)) eq_refl eq_refl).
  - exact (proj2 (proj2 (incompatible_commodities sample.annotated_eq
                           sample.find_or_create sample.st
                           sample.five sample.usd5)) eq_refl eq_refl).
Defined.

Lemma null_is_identity_witness :
  operator_plus_eq sample.annotated_eq sample.find_or_create
                   sample.st sample.usd5 amount_ctor0
  = Ret (sample.usd5, sample.st) /\
  operator_times_eq sample.st amount_ctor0 sample.usd5 = Ret sample.usd5 /\
  amount_operator_eq sample.annotated_eq sample.st sample.usd5 sample.usd5 = Ret true /\
  operator_minus_eq sample.annotated_eq sample.find_or_create
                    sample.st sample.usd5 sample.usd5
  = Ret (sample.usd0, sample.st).
Proof.
  destruct (null_is_identity sample.annotated_eq sample.find_or_create
              sample.st sample.usd5 amount_ctor0
              eq_refl (ex_intro _ false eq_refl)) as ((H1 & _ & _) & H2 & _ & H4).
  destruct (H2 eq_refl) as (_ & _ & H3).
  destruct (H4 eq_refl) as (H5 & _).
  split; [exact H1|]. split; [exact H3|]. split; [exact (H5 _ _ H1) | reflexivity].
Defined.



(** ** Exact amounts *)

(** [exact] is the parse of the string into a default-constructed amount,
    against the default pool and with [AMOUNT_PARSE_NO_MIGRATE]; the
    amount and the store it yields are those of that parse. *)
Lemma exact_is_parse_amount
    (parse_stream : state -> amount_t -> addr -> string -> Z -> res (amount_t * state))
    (s : state) (value : string) (p : addr) :
  default_pool s = Some p -> is_Some (pools s !! p) ->
  exact parse_stream s value
  = parse_amount parse_stream s p value AMOUNT_PARSE_NO_MIGRATE.
Proof.
  intros Hp [pool Hpool]. unfold exact, parse, parse_amount. rewrite Hp. simpl.
  rewrite Hpool. reflexivity.
Qed.

Lemma exact_is_parse_no_migrate
    (parse_stream : state -> amount_t -> addr -> string -> Z -> res (amount_t * state))
    (s : state) (value : string) (p : addr) :
  default_pool s = Some p -> is_Some (pools s !! p) ->
  exact parse_stream s value = parse_stream s amount_ctor0 p value 1.
Proof.
  intros Hp [pool Hpool]. unfold exact, parse, parse_in. rewrite Hp. simpl.
  rewrite Hpool. reflexivity.
Qed.

(** * Further properties of the inline code *)

(** ** Copies and [number()] *)

Lemma copy_ctor_idempotent (a : amount_t) : copy_ctor (copy_ctor a) = copy_ctor a.
Proof. destruct a as [[q|] c]; reflexivity. Qed.

(** X1: a copy keeps the quantity, has a null commodity pointer when there is
    no quantity, is a fixed point of copying, and is the original when
    that has a quantity; whether a copy is null is decided by the
    quantity alone, in any store. *)
Theorem copy_ctor_normalises (s : state) (a : amount_t) :
  quantity (copy_ctor a) = quantity a /\
  (quantity (copy_ctor a) = None -> commodity_ (copy_ctor a) = None) /\
  copy_ctor (copy_ctor a) = copy_ctor a /\
  (is_Some (quantity a) -> copy_ctor a = a) /\
  is_null s (copy_ctor a) = Ret (bool_decide (quantity a = None)).
Proof.
  destruct a as [[q|] c]; unfold copy_ctor, is_null; simpl;
    repeat split; try reflexivity; try discriminate.
  intros [? [=]].
Qed.

Lemma copy_ctor_normalises_witness :
  copy_ctor sample.usd_unset = amount_ctor0 /\ copy_ctor sample.usd5 = sample.usd5.
Proof.
  split; [reflexivity|].
  apply (proj1 (proj2 (proj2 (proj2 (copy_ctor_normalises sample.st sample.usd5))))).
  eexists. reflexivity.
Defined.

(** X2: [number()] returns whenever [has_commodity()] does; its result has
    the quantity of the amount and no commodity, and [number()] leaves
    it as it is. *)
Theorem number_strips_commodity (s : state) (a : amount_t) :
  returns (has_commodity s a) ->
  exists r, number s a = Ret r /\ quantity r = quantity a /\
            has_commodity s r = Ret false /\ number s r = Ret r.
Proof.
  intros [h Hh]. unfold number. rewrite Hh. simpl. destruct h.
  - exists (clear_commodity (copy_ctor a)). split; [reflexivity|].
    split; [destruct a as [[q|] c]; reflexivity|].
    split; [reflexivity|]. simpl.
    destruct a as [[q|] c]; reflexivity.
  - exists (copy_ctor a). split; [reflexivity|].
    split; [destruct a as [[q|] c]; reflexivity|].
    pose proof (has_commodity_copy s a Hh) as Hc.
    split; [assumption|]. rewrite Hc. simpl.
    rewrite copy_ctor_idempotent. reflexivity.
Qed.

Lemma number_strips_commodity_witness :
  number sample.st sample.usd5 = Ret (mk_amount (Some (mk_bigint 500 2)) None).
Proof.
  destruct (number_strips_commodity sample.st sample.usd5 (ex_intro _ true eq_refl))
    as (r & Hr & _).
  rewrite Hr. injection Hr as <-. reflexivity.
Defined.

(** ** Setting and clearing the commodity *)

Lemma has_commodity_set (s : state) (a : amount_t) (c p : addr)
    (pool : commodity_pool_t.t) :
  commodity_t.parent s c = Ret p -> pools s !! p = Some pool ->
  has_commodity s (set_commodity a c)
  = Ret (negb (bool_decide (Some c = commodity_pool_t.null_commodity pool))).
Proof.
  intros Hp Hpool. unfold has_commodity. simpl. rewrite Hp. simpl.
  rewrite Hpool. reflexivity.
Qed.

Lemma parent_live (s : state) (c p : addr) :
  commodity_t.parent s c = Ret p -> is_Some (objects s !! c).
Proof.
  unfold commodity_t.parent, commodity_t.this_fields. simpl.
  destruct (objects s !! c); [eauto | discriminate].
Qed.

Lemma has_commodity_set_true (s : state) (a : amount_t) (c p : addr)
    (pool : commodity_pool_t.t) :
  commodity_t.parent s c = Ret p -> pools s !! p = Some pool ->
  commodity_pool_t.null_commodity pool <> Some c ->
  has_commodity s (set_commodity a c) = Ret true /\
  commodity s (set_commodity a c) = Ret c.
Proof.
  intros Hp Hpool Hn.
  assert (Hh : has_commodity s (set_commodity a c) = Ret true).
  { rewrite (has_commodity_set s a c p pool Hp Hpool).
    rewrite bool_decide_eq_false_2 by congruence. reflexivity. }
  split; [assumption|].
  unfold commodity. rewrite Hh. simpl.
  destruct (parent_live s c p Hp) as [o Ho]. rewrite Ho. reflexivity.
Qed.

(** X3: [set_commodity] with a commodity that is not the sentinel of its
    pool: the amount has that commodity, keeps its quantity and is not
    null, with or without a quantity; [clear_commodity] undoes it as far
    as the commodity goes, and after it [has_commodity()] is false in any
    store. *)
Theorem set_commodity_has_commodity (s : state) (a : amount_t) (c p : addr)
    (pool : commodity_pool_t.t) :
  commodity_t.parent s c = Ret p -> pools s !! p = Some pool ->
  commodity_pool_t.null_commodity pool <> Some c ->
  has_commodity s (set_commodity a c) = Ret true /\
  commodity s (set_commodity a c) = Ret c /\
  is_null s (set_commodity a c) = Ret false /\
  quantity (set_commodity a c) = quantity a /\
  clear_commodity (set_commodity a c) = clear_commodity a /\
  (forall s', has_commodity s' (clear_commodity a) = Ret false).
Proof.
  intros Hp Hpool Hn.
  destruct (has_commodity_set_true s a c p pool Hp Hpool Hn) as (Hh & Hc).
  split; [assumption|]. split; [assumption|].
  split; [apply is_null_has_commodity; assumption|].
  repeat split.
Qed.

Lemma set_commodity_has_commodity_witness :
  has_commodity sample.st sample.usd_unset = Ret true /\
  commodity sample.st (set_commodity sample.five sample.eur) = Ret sample.eur /\
  is_null sample.st sample.usd_unset = Ret false.
Proof.
  pose (pool := commodity_pool_t.mk
                  [sample.null; sample.usd; sample.eur; sample.aapl; sample.aapl_lot]
                  (Some sample.null) None).
  destruct (set_commodity_has_commodity sample.st amount_ctor0 sample.usd sample.pool
              pool eq_refl eq_refl) as (H1 & _ & H3 & _); [discriminate|].
  destruct (set_commodity_has_commodity sample.st sample.five sample.eur sample.pool
              pool eq_refl eq_refl) as (_ & H2 & _); [discriminate|].
  split; [exact H1|]. split; [exact H2 | exact H3].
Defined.

(** X4: handing an amount the commodity that [commodity()] reports for it
    does not change what [commodity()] reports. *)
Theorem set_commodity_commodity (s : state) (a : amount_t) (c : addr) :
  commodity s a = Ret c ->
  returns (has_commodity s (set_commodity a c)) ->
  commodity s (set_commodity a c) = Ret c.
Proof.
  intros Hc [h Hh]. destruct h.
  - destruct (commodity_present _ _ Hh) as (c' & Hc' & H). simpl in Hc'.
    injection Hc' as <-. assumption.
  - unfold commodity in *. rewrite Hh. simpl.
    destruct (has_commodity s a) as [[]| |] eqn:Ha; try discriminate; simpl in Hc.
    + (* the amount had [c] already *)
      apply ref_of_ret_inv in Hc as (Hc & _).
      rewrite (has_commodity_ext s (set_commodity a c) a) in Hh
        by (simpl; congruence).
      congruence.
    + assumption.
Qed.

Lemma set_commodity_commodity_witness :
  commodity sample.st (set_commodity sample.five sample.null) = Ret sample.null /\
  commodity sample.st (set_commodity sample.usd5 sample.usd) = Ret sample.usd.
Proof.
  split.
  - apply (set_commodity_commodity sample.st sample.five sample.null eq_refl).
    exists false. reflexivity.
  - apply (set_commodity_commodity sample.st sample.usd5 sample.usd eq_refl).
    exists true. reflexivity.
Defined.

(** ** Reading and writing through the shared base *)

Lemma get_inv {A} (f : commodity_base_t.t -> A) (s : state) (h : addr) (x : A) :
  commodity_t.get f s h = Ret x ->
  exists a b, commodity_t.base_of s h = Ret (a, b) /\ x = f b.
Proof.
  unfold commodity_t.get. intros H.
  apply bind_ret_inv in H as ([a b] & Hab & [= <-]). eauto.
Qed.

Lemma get_intro {A} (f : commodity_base_t.t -> A) (s : state) (h a : addr)
    (b : commodity_base_t.t) :
  commodity_t.base_of s h = Ret (a, b) -> commodity_t.get f s h = Ret (f b).
Proof. unfold commodity_t.get. intros ->. reflexivity. Qed.

Lemma update_inv (g : commodity_base_t.t -> commodity_base_t.t)
    (s s' : state) (h : addr) :
  commodity_t.update g s h = Ret s' ->
  exists a b, commodity_t.base_of s h = Ret (a, b) /\
              s' = set_bases <[a := g b]> s.
Proof.
  unfold commodity_t.update. intros H.
  apply bind_ret_inv in H as ([a b] & Hab & [= <-]). eauto.
Qed.

Lemma update_intro (g : commodity_base_t.t -> commodity_base_t.t)
    (s : state) (h a : addr) (b : commodity_base_t.t) :
  commodity_t.base_of s h = Ret (a, b) ->
  commodity_t.update g s h = Ret (set_bases <[a := g b]> s).
Proof. unfold commodity_t.update. intros ->. reflexivity. Qed.

Lemma base_of_written (s : state) (h h2 a : addr) (b x : commodity_base_t.t) :
  commodity_t.base_of s h = Ret (a, b) -> same_base s h h2 ->
  commodity_t.base_of (set_bases <[a := x]> s) h2 = Ret (a, x).
Proof.
  intros Hab (o1 & o2 & Ho1 & Ho2 & Hb).
  apply base_of_spec in Hab as (o & Ho & Ha & _).
  apply base_of_spec. exists o2. simpl. split; [assumption|].
  split; [congruence | apply lookup_insert_eq].
Qed.

Lemma base_of_frame (s : state) (h2 a a2 : addr) (b2 x : commodity_base_t.t) :
  commodity_t.base_of s h2 = Ret (a2, b2) -> a2 <> a ->
  commodity_t.base_of (set_bases <[a := x]> s) h2 = Ret (a2, b2).
Proof.
  intros H Hne. apply base_of_spec in H as (o & Ho & Ha & Hb).
  apply base_of_spec. exists o. simpl. split; [assumption|].
  split; [assumption|]. rewrite lookup_insert_ne by congruence. assumption.
Qed.

Lemma same_base_refl (s : state) (h a : addr) (b : commodity_base_t.t) :
  commodity_t.base_of s h = Ret (a, b) -> same_base s h h.
Proof.
  intros H. apply base_of_spec in H as (o & Ho & _). exists o, o. auto.
Qed.

(** ** Style flags *)

Lemma flags_t_small (x : Z) :
  (forall i, 8 <= i -> Z.testbit x i = false) -> to_flags_t x = x.
Proof.
  intros H. unfold to_flags_t. change 256 with (2 ^ 8).
  apply Z.bits_inj'. intros i Hi.
  destruct (Z.lt_ge_cases i 8) as [Hlt | Hge].
  - apply Z.mod_pow2_bits_low. lia.
  - rewrite Z.mod_pow2_bits_high by lia. symmetry. apply H. assumption.
Qed.

Lemma flags_t_high_bits (f i : Z) :
  0 <= f < 256 -> 8 <= i -> Z.testbit f i = false.
Proof.
  intros Hf Hi. rewrite <- (Z.mod_small f (2 ^ 8)) by (change (2 ^ 8) with 256; lia).
  apply Z.mod_pow2_bits_high. lia.
Qed.

Lemma to_flags_t_range (x : Z) : 0 <= to_flags_t x < 256.
Proof. unfold to_flags_t. apply Z.mod_pos_bound. lia. Qed.

Lemma flags_t_lor (f a : Z) :
  0 <= f < 256 -> 0 <= a < 256 -> to_flags_t (Z.lor f a) = Z.lor f a.
Proof.
  intros Hf Ha. apply flags_t_small. intros i Hi.
  rewrite Z.lor_spec, (flags_t_high_bits f i Hf Hi), (flags_t_high_bits a i Ha Hi).
  reflexivity.
Qed.

Lemma flags_t_drop (f a : Z) :
  0 <= f < 256 -> to_flags_t (Z.land f (Z.lnot a)) = Z.ldiff f a.
Proof.
  intros Hf. rewrite <- Z.ldiff_land. apply flags_t_small. intros i Hi.
  rewrite Z.ldiff_spec, (flags_t_high_bits f i Hf Hi). reflexivity.
Qed.

Lemma ldiff_lor_same (f a : Z) : Z.ldiff (Z.lor f a) a = Z.ldiff f a.
Proof.
  apply Z.bits_inj'. intros i Hi.
  rewrite !Z.ldiff_spec, Z.lor_spec.
  destruct (Z.testbit f i), (Z.testbit a i); reflexivity.
Qed.

Lemma land_lor_same (f a : Z) : Z.land (Z.lor f a) a = a.
Proof.
  apply Z.bits_inj'. intros i Hi.
  rewrite Z.land_spec, Z.lor_spec.
  destruct (Z.testbit f i), (Z.testbit a i); reflexivity.
Qed.

Lemma land_ldiff_same (f a : Z) : Z.land (Z.ldiff f a) a = 0.
Proof.
  apply Z.bits_inj'. intros i Hi.
  rewrite Z.land_spec, Z.ldiff_spec, Z.bits_0.
  destruct (Z.testbit f i), (Z.testbit a i); reflexivity.
Qed.

Lemma ldiff_range (f a : Z) : 0 <= f < 256 -> 0 <= Z.ldiff f a < 256.
Proof.
  intros Hf. rewrite <- (flags_t_drop f a Hf). apply to_flags_t_range.
Qed.

Lemma lor_range (f a : Z) : 0 <= f < 256 -> 0 <= a < 256 -> 0 <= Z.lor f a < 256.
Proof.
  intros Hf Ha. rewrite <- (flags_t_lor f a Hf Ha). apply to_flags_t_range.
Qed.

Lemma flags_intro (s : state) (h a : addr) (b : commodity_base_t.t) :
  commodity_t.base_of s h = Ret (a, b) ->
  commodity_t.flags s h = Ret (commodity_base_t.flags b).
Proof. apply get_intro. Qed.

(** X5: on [flags_t] values: [add_flags] sets exactly the bits of its
    argument on top of those set before, [drop_flags] clears exactly
    them, and dropping the flags just added leaves what dropping them
    from the start leaves. *)
Theorem flags_add_drop (s : state) (h : addr) (f a : Z) :
  commodity_t.flags s h = Ret f -> 0 <= f < 256 -> 0 <= a < 256 ->
  exists s1 s2 s3,
    commodity_t.add_flags s h a = Ret s1 /\
    commodity_t.flags s1 h = Ret (Z.lor f a) /\
    commodity_t.drop_flags s1 h a = Ret s2 /\
    commodity_t.flags s2 h = Ret (Z.ldiff f a) /\
    commodity_t.drop_flags s h a = Ret s3 /\
    commodity_t.flags s3 h = Ret (Z.ldiff f a) /\
    Z.land (Z.lor f a) a = a /\ Z.land (Z.ldiff f a) a = 0.
Proof.
  intros Hfl Hf Ha.
  unfold commodity_t.flags in Hfl. apply get_inv in Hfl as (ba & b & Hab & ->).
  pose proof (same_base_refl _ _ _ _ Hab) as Hself.
  set (b1 := commodity_base_t.with_flags
               (to_flags_t (Z.lor (commodity_base_t.flags b) a)) b).
  set (s1 := set_bases <[ba := b1]> s).
  assert (Hab1 : commodity_t.base_of s1 h = Ret (ba, b1))
    by (apply (base_of_written s h h ba b); assumption).
  set (b2 := commodity_base_t.with_flags
               (to_flags_t (Z.land (commodity_base_t.flags b1) (Z.lnot a))) b1).
  set (b3 := commodity_base_t.with_flags
               (to_flags_t (Z.land (commodity_base_t.flags b) (Z.lnot a))) b).
  exists s1, (set_bases <[ba := b2]> s1), (set_bases <[ba := b3]> s).
  split; [unfold commodity_t.add_flags; rewrite (update_intro _ s h ba b Hab); reflexivity|].
  split; [rewrite (flags_intro _ _ _ _ Hab1); simpl; rewrite flags_t_lor by assumption;
          reflexivity|].
  split; [unfold commodity_t.drop_flags; rewrite (update_intro _ s1 h ba b1 Hab1);
          reflexivity|].
  split.
  { rewrite (flags_intro _ h ba b2).
    - simpl. rewrite flags_t_lor by assumption.
      rewrite flags_t_drop by (apply lor_range; assumption).
      rewrite ldiff_lor_same. reflexivity.
    - apply (base_of_written s1 h h ba b1); [assumption|].
      apply (same_base_refl _ _ _ _ Hab1). }
  split; [unfold commodity_t.drop_flags; rewrite (update_intro _ s h ba b Hab);
          reflexivity|].
  split.
  { rewrite (flags_intro _ h ba b3).
    - simpl. rewrite flags_t_drop by assumption. reflexivity.
    - apply (base_of_written s h h ba b); assumption. }
  split; [apply land_lor_same | apply land_ldiff_same].
Qed.

Lemma flags_add_drop_witness :
  exists s1 s2,
    commodity_t.add_flags sample.st sample.usd COMMODITY_STYLE_THOUSANDS = Ret s1 /\
    commodity_t.flags s1 sample.usd = Ret 8 /\
    commodity_t.drop_flags s1 sample.usd COMMODITY_STYLE_THOUSANDS = Ret s2 /\
    commodity_t.flags s2 sample.usd = Ret 0.
Proof.
  destruct (flags_add_drop sample.st sample.usd 0 COMMODITY_STYLE_THOUSANDS eq_refl)
    as (s1 & s2 & s3 & H1 & H2 & H3 & H4 & _);
    [unfold COMMODITY_STYLE_THOUSANDS; lia | unfold COMMODITY_STYLE_THOUSANDS; lia |].
  exists s1, s2. repeat split; assumption.
Defined.

Lemma mutation_fun_flags_range (m : mutation) (b : commodity_base_t.t) :
  mutation_in_range m -> 0 <= commodity_base_t.flags b < 256 ->
  0 <= commodity_base_t.flags (mutation_fun m b) < 256.
Proof.
  destruct m; simpl; intros Hm Hb; try assumption; apply to_flags_t_range.
Qed.

Lemma mutate_flags_in_range (s s' : state) (h : addr) (m : mutation) :
  flags_in_range s -> mutation_in_range m -> mutate s h m = Ret s' ->
  flags_in_range s'.
Proof.
  intros Hs Hm H. apply mutate_inv in H as (a & b & Hab & ->).
  apply base_of_spec in Hab as (o & _ & _ & Hb).
  intros a' b'. simpl. rewrite lookup_insert. case_decide.
  - intros [= <-]. apply mutation_fun_flags_range; [assumption|]. eapply Hs. eassumption.
  - apply Hs.
Qed.

(** X6: the flags of every base stay [flags_t] values: the constructors
    store such values whatever [unsigned int] they are given, and
    [set_precision], [add_flags], [drop_flags], [set_name], [set_note]
    with any argument, and [set_flags] with a [flags_t] argument, keep
    them so through any handles. *)
Theorem flags_stay_in_range (s s' : state) (l : list (addr * mutation)) :
  flags_in_range s ->
  Forall (fun hm => mutation_in_range hm.2) l ->
  mutate_all s l = Ret s' ->
  flags_in_range s' /\
  (forall h f, commodity_t.flags s' h = Ret f -> 0 <= f < 256) /\
  (forall sym p f, 0 <= commodity_base_t.flags (commodity_base_t.ctor sym p f) < 256).
Proof.
  intros Hs Hl H.
  assert (Hs' : flags_in_range s').
  { revert s Hs H. induction Hl as [|[h m] l Hm Hl IH]; simpl; intros s Hs H.
    - injection H as <-. assumption.
    - apply bind_ret_inv in H as (s1 & H1 & H2).
      apply (IH s1); [|assumption].
      eapply mutate_flags_in_range; eassumption. }
  split; [assumption|]. split.
  - intros h f Hf. unfold commodity_t.flags in Hf.
    apply get_inv in Hf as (a & b & Hab & ->).
    apply base_of_spec in Hab as (o & _ & _ & Hb). eapply Hs'. eassumption.
  - intros sym p f. apply to_flags_t_range.
Qed.

Lemma sample_flags_in_range : flags_in_range sample.st.
Proof.
  intros a b. unfold sample.st, bases.
  repeat (rewrite lookup_insert; case_decide;
          [intros [= <-]; cbv; split; congruence|]).
  rewrite lookup_empty. discriminate.
Defined.

Lemma flags_stay_in_range_witness :
  exists s', mutate_all sample.st
               [(sample.aapl_lot, AddFlags 8); (sample.aapl, DropFlags 2);
                (sample.usd, SetFlags 3)] = Ret s' /\
             commodity_t.flags s' sample.aapl = Ret 9 /\
             flags_in_range s'.
Proof.
  eexists. split; [reflexivity|]. split; [reflexivity|].
  refine (proj1 (flags_stay_in_range sample.st _
                   [(sample.aapl_lot, AddFlags 8); (sample.aapl, DropFlags 2);
                    (sample.usd, SetFlags 3)] sample_flags_in_range _ eq_refl)).
  repeat constructor; simpl; lia.
Defined.

(** ** Equality of commodities *)

Section commodity_equality.

Variable annotated_eq : state -> addr -> addr -> res bool.

Lemma plain_operator_eq (s : state) (x y : addr) (fx fy : commodity_fields) :
  objects s !! x = Some (Plain fx) -> annotated fx = false ->
  objects s !! y = Some (Plain fy) -> annotated fy = false ->
  commodity_t.operator_eq annotated_eq s x y = Ret (bool_decide (base fx = base fy)).
Proof.
  intros Hx Hfx Hy Hfy. unfold commodity_t.operator_eq. simpl.
  rewrite Hx, Hy. simpl. rewrite Hfy. reflexivity.
Qed.

(** X7: between commodities that are not annotated, [operator==] never calls
    the override of the annotated class: it returns, it is true exactly
    when the two hold the same base pointer, and so it is reflexive,
    symmetric and transitive, whether or not the two are one object. *)
Theorem plain_commodity_equality (s : state) (x y z : addr) :
  plain_at s x -> plain_at s y -> plain_at s z ->
  exists fx fy,
    objects s !! x = Some (Plain fx) /\ objects s !! y = Some (Plain fy) /\
    commodity_t.operator_eq annotated_eq s x y = Ret (bool_decide (base fx = base fy)) /\
    commodity_t.operator_eq annotated_eq s x x = Ret true /\
    commodity_t.operator_eq annotated_eq s y x
    = commodity_t.operator_eq annotated_eq s x y /\
    (commodity_t.operator_eq annotated_eq s x y = Ret true ->
     commodity_t.operator_eq annotated_eq s y z = Ret true ->
     commodity_t.operator_eq annotated_eq s x z = Ret true).
Proof.
  intros (fx & Hx & Hfx) (fy & Hy & Hfy) (fz & Hz & Hfz).
  exists fx, fy. split; [assumption|]. split; [assumption|].
  rewrite (plain_operator_eq s x y fx fy), (plain_operator_eq s x x fx fx),
    (plain_operator_eq s y x fy fx), (plain_operator_eq s y z fy fz),
    (plain_operator_eq s x z fx fz) by assumption.
  split; [reflexivity|].
  split; [rewrite bool_decide_eq_true_2 by reflexivity; reflexivity|].
  split.
  - f_equal. apply bool_decide_ext. split; congruence.
  - intros [= H1] [= H2]. apply bool_decide_eq_true_1 in H1, H2.
    rewrite bool_decide_eq_true_2 by congruence. reflexivity.
Qed.

(** X8: between a commodity that is not annotated and any commodity whose
    [annotated] member agrees with its class, the two orders of
    [operator==] give the same outcome: facing an annotated commodity,
    either order ends in the override called on the annotated one. *)
Theorem mixed_commodity_equality_symmetric (s : state) (x y : addr) :
  plain_at s x -> tagged s y ->
  commodity_t.operator_eq annotated_eq s x y
  = commodity_t.operator_eq annotated_eq s y x /\
  (forall a, objects s !! y = Some (Annotated a) ->
             commodity_t.operator_eq annotated_eq s x y = annotated_eq s y x).
Proof.
  intros (fx & Hx & Hfx) Hy. unfold tagged in Hy.
  destruct (objects s !! y) as [[fy|ay]|] eqn:Ey; [| |contradiction].
  - split; [|discriminate].
    rewrite (plain_operator_eq s x y fx fy), (plain_operator_eq s y x fy fx)
      by assumption.
    f_equal. apply bool_decide_ext. split; congruence.
  - assert (H : commodity_t.operator_eq annotated_eq s x y = annotated_eq s y x).
    { unfold commodity_t.operator_eq. simpl. rewrite Hx, Ey. simpl.
      rewrite Hy. reflexivity. }
    split; [|intros; assumption].
    rewrite H. unfold commodity_t.operator_eq. simpl. rewrite Ey, Hx. reflexivity.
Qed.

End commodity_equality.

Lemma sample_plain_at_aapl : plain_at sample.st sample.aapl.
Proof. eexists. split; reflexivity. Defined.

Lemma sample_plain_at_usd : plain_at sample.st sample.usd.
Proof. eexists. split; reflexivity. Defined.

Lemma plain_commodity_equality_witness :
  commodity_t.operator_eq sample.annotated_eq sample.st sample.usd sample.aapl
  = Ret false /\
  commodity_t.operator_eq sample.annotated_eq sample.st sample.aapl sample.usd
  = commodity_t.operator_eq sample.annotated_eq sample.st sample.usd sample.aapl.
Proof.
  destruct (plain_commodity_equality sample.annotated_eq sample.st
              sample.usd sample.aapl sample.usd
              sample_plain_at_usd sample_plain_at_aapl sample_plain_at_usd)
    as (fx & fy & Hx & Hy & H1 & _ & H2 & _).
  split; [|exact H2].
  rewrite H1. injection Hx as <-. injection Hy as <-. reflexivity.
Defined.

Lemma mixed_commodity_equality_symmetric_witness :
  commodity_t.operator_eq sample.annotated_eq sample.st sample.aapl sample.aapl_lot
  = commodity_t.operator_eq sample.annotated_eq sample.st sample.aapl_lot sample.aapl.
Proof.
  apply (proj1 (mixed_commodity_equality_symmetric sample.annotated_eq sample.st
                  sample.aapl sample.aapl_lot sample_plain_at_aapl eq_refl)).
Defined.

(** ** Annotations *)

(** X9: comparing an annotation with the default-constructed one, on either
    side, compares no amounts and cannot fail: it is true exactly when
    the annotation converts to [false], that is when it holds no price,
    no date and no tag. *)
Theorem annotation_eq_default (amount_eq : amount_t -> amount_t -> res bool)
    (d : annotation_t.t) :
  annotation_operator_eq amount_eq d annotation_t.ctor0
  = Ret (negb (annotation_t.to_bool d)) /\
  annotation_operator_eq amount_eq annotation_t.ctor0 d
  = Ret (negb (annotation_t.to_bool d)) /\
  (annotation_t.to_bool d = false <-> d = annotation_t.ctor0).
Proof.
  destruct d as [[p|] [t|] [g|]]; repeat split; try reflexivity;
    try discriminate.
Qed.

(** ** Annotated commodities *)

Lemma copy_ctor_quantity (a : amount_t) :
  quantity a <> None -> copy_ctor a = a.
Proof.
  destruct a as [[q|] c]; [reflexivity|]. intros H. contradiction H. reflexivity.
Qed.

Lemma annotation_copy_id (d : annotation_t.t) :
  (forall q, annotation_t.price d = Some q -> quantity q <> None) ->
  annotation_t.copy d = d.
Proof.
  destruct d as [[q|] t g]; intros H; unfold annotation_t.copy; simpl;
    [|reflexivity].
  rewrite (copy_ctor_quantity q (H q eq_refl)). reflexivity.
Qed.

(** X10: a commodity built by the constructor of the annotated class belongs
    to the pool of the commodity it was built from and carries a copy of
    the annotation it was given: the date and the tag as given, and the
    price as the copy constructor of [amount_t] leaves it, so the very
    annotation whenever its price, if any, has a quantity; it takes
    neither the qualified symbol nor the mapping key of that commodity,
    so its [symbol()] and [mapping_key()] are the base symbol. *)
Theorem annotated_symbol (s s1 : state) (a p : addr) (d : annotation_t.t) :
  objects s !! a = None ->
  annotated_commodity_t.new s a (Some p) d = Ret s1 ->
  commodity_t.parent s1 a = commodity_t.parent s1 p /\
  commodity_t.base_symbol s1 a = commodity_t.base_symbol s1 p /\
  commodity_t.symbol s1 a = commodity_t.base_symbol s1 p /\
  commodity_t.mapping_key s1 a = commodity_t.base_symbol s1 p /\
  (exists x, objects s1 !! a = Some (Annotated x) /\
             details x = annotation_t.copy d /\
             annotation_t.date (details x) = annotation_t.date d /\
             annotation_t.tag (details x) = annotation_t.tag d /\
             annotation_t.price (details x) = copy_ctor <$> annotation_t.price d /\
             ((forall q, annotation_t.price d = Some q -> quantity q <> None) ->
              details x = d) /\
             qualified_symbol (super x) = None /\ mapping_key_ (super x) = None /\
             ident (super x) = None).
Proof.
  intros Hfresh Hnew.
  destruct (new_annotated_inv _ _ _ _ _ Hfresh Hnew)
    as (x & o & Ha & Hp & Hann & Hbase & Hpar & Hptr & Hd).
  assert (Hq : qualified_symbol (super x) = None /\ mapping_key_ (super x) = None /\
               ident (super x) = None).
  { unfold annotated_commodity_t.new in Hnew.
    apply bind_ret_inv in Hnew as (x' & Hx' & [= <-]).
    simpl in Ha. rewrite lookup_insert_eq in Ha. injection Ha as <-.
    unfold annotated_commodity_t.ctor in Hx'.
    apply bind_ret_inv in Hx' as (c & _ & [= <-]). repeat split. }
  destruct Hq as (Hq & Hk & Hi).
  assert (Hbs : commodity_t.base_symbol s1 a = commodity_t.base_symbol s1 p).
  { unfold commodity_t.base_symbol, commodity_t.get, commodity_t.base_of,
      commodity_t.this_fields. simpl. rewrite Ha, Hp. simpl. rewrite Hbase.
    reflexivity. }
  split.
  { unfold commodity_t.parent, commodity_t.this_fields. simpl.
    rewrite Ha, Hp. simpl. rewrite Hpar. reflexivity. }
  split; [assumption|]. split.
  { unfold commodity_t.symbol at 1, commodity_t.this_fields. simpl. rewrite Ha. simpl.
    rewrite Hq. assumption. }
  split.
  { unfold commodity_t.mapping_key at 1, commodity_t.this_fields. simpl.
    rewrite Ha. simpl. rewrite Hk. assumption. }
  exists x. rewrite Hd. repeat split; try assumption.
  intros Hqty. apply annotation_copy_id. assumption.
Qed.

Lemma annotated_symbol_witness :
  exists s1,
    annotated_commodity_t.new sample.st 9%positive (Some sample.eur)
                              sample.lot_details = Ret s1 /\
    commodity_t.symbol s1 9%positive = Ret "EUR"%string /\
    commodity_t.parent s1 9%positive = Ret sample.pool /\
    exists x, objects s1 !! 9%positive = Some (Annotated x) /\
              details x = sample.lot_details.
Proof.
  eexists. split; [reflexivity|].
  destruct (annotated_symbol sample.st _ 9%positive sample.eur sample.lot_details
              eq_refl eq_refl) as (H1 & _ & H3 & _ & x & Hx & _ & _ & _ & _ & Hd & _).
  split; [rewrite H3; reflexivity|]. split; [rewrite H1; reflexivity|].
  exists x. split; [exact Hx|]. apply Hd.
  intros q [= <-]. discriminate.
Defined.

(** X11: annotating an annotated commodity: the referent of the new one is
    the annotated commodity it was built from, not the plain one under
    it, and all three hold one base, so a mutation of the display
    metadata through the outermost handle shows through the innermost. *)
Theorem nested_annotation_shares_base
    (s s1 s2 : state) (a b p : addr) (d d' : annotation_t.t) :
  objects s !! a = None ->
  annotated_commodity_t.new s a (Some p) d = Ret s1 ->
  objects s1 !! b = None ->
  annotated_commodity_t.new s1 b (Some a) d' = Ret s2 ->
  annotated_commodity_t.referent s2 b = Ret a /\
  annotated_commodity_t.referent s2 a = Ret p /\
  same_base s2 b p /\
  display_metadata s2 b = display_metadata s2 p /\
  (forall m md s3,
      display_metadata s2 b = Ret md -> mutate s2 b m = Ret s3 ->
      display_metadata s3 p = Ret (apply_mutation m md)).
Proof.
  intros Ha Hnew1 Hb Hnew2.
  destruct (new_annotated_inv _ _ _ _ _ Ha Hnew1)
    as (x & o & Hxa & Hxp & _ & Hbase1 & _ & Hptr1 & _).
  destruct (new_annotated_inv _ _ _ _ _ Hb Hnew2)
    as (y & o' & Hyb & Hya & _ & Hbase2 & _ & Hptr2 & _).
  assert (Hobj : objects s2 = <[b := Annotated y]> (objects s1)).
  { unfold annotated_commodity_t.new in Hnew2.
    apply bind_ret_inv in Hnew2 as (y' & Hy' & [= <-]). simpl.
    simpl in Hyb. rewrite lookup_insert_eq in Hyb. injection Hyb as <-.
    reflexivity. }
  assert (Hpb : p <> b) by congruence.
  assert (Hab : a <> b) by congruence.
  assert (Ha2 : objects s2 !! a = Some (Annotated x)).
  { rewrite Hobj, lookup_insert_ne by congruence. assumption. }
  assert (Hp2 : objects s2 !! p = Some o).
  { rewrite Hobj, lookup_insert_ne by congruence. assumption. }
  assert (Ho' : o' = Annotated x) by congruence. subst o'.
  assert (Hsame : same_base s2 b p).
  { exists (Annotated y), o. simpl in *. split; [assumption|].
    split; [assumption | congruence]. }
  split.
  { unfold annotated_commodity_t.referent. simpl. rewrite Hyb. simpl.
    rewrite Hptr2. simpl. rewrite Ha2. reflexivity. }
  split.
  { unfold annotated_commodity_t.referent. simpl. rewrite Ha2. simpl.
    rewrite Hptr1. simpl. rewrite Hp2. reflexivity. }
  split; [assumption|]. split.
  - unfold display_metadata, commodity_t.precision, commodity_t.flags,
      commodity_t.name, commodity_t.note, commodity_t.get.
    assert (E : commodity_t.base_of s2 b = commodity_t.base_of s2 p).
    { unfold commodity_t.base_of, commodity_t.this_fields. simpl.
      rewrite Hyb, Hp2. simpl in *. rewrite Hbase2, Hbase1. reflexivity. }
    rewrite E. reflexivity.
  - intros m md s3. apply mutation_observed. assumption.
Qed.

Lemma nested_annotation_shares_base_witness :
  exists s1 s2,
    annotated_commodity_t.new sample.st 9%positive (Some sample.aapl)
                              sample.lot_details = Ret s1 /\
    annotated_commodity_t.new s1 10%positive (Some 9%positive)
                              annotation_t.ctor0 = Ret s2 /\
    annotated_commodity_t.referent s2 10%positive = Ret 9%positive /\
    annotated_commodity_t.referent s2 9%positive = Ret sample.aapl /\
    display_metadata s2 10%positive = display_metadata s2 sample.aapl.
Proof.
  eexists. eexists. split; [reflexivity|]. split; [reflexivity|].
  destruct (nested_annotation_shares_base sample.st _ _ 9%positive 10%positive
              sample.aapl sample.lot_details annotation_t.ctor0
              eq_refl eq_refl eq_refl eq_refl) as (H1 & H2 & _ & H4 & _).
  split; [exact H1|]. split; [exact H2 | exact H4].
Defined.

(** ** What a mutation of the display metadata leaves alone *)

Lemma get_after_update {A} (g : commodity_base_t.t -> commodity_base_t.t)
    (f : commodity_base_t.t -> A) (s s' : state) (h : addr) :
  (forall b, f (g b) = f b) ->
  commodity_t.update g s h = Ret s' ->
  forall h2, commodity_t.get f s' h2 = commodity_t.get f s h2.
Proof.
  intros Hfg H h2. apply update_inv in H as (a & b & Hab & ->).
  apply base_of_spec in Hab as (o & _ & _ & Hb).
  unfold commodity_t.get, commodity_t.base_of, commodity_t.this_fields. simpl.
  destruct (objects s !! h2) as [o2|]; simpl; [|reflexivity].
  destruct (base (fields o2)) as [a2|]; simpl; [|reflexivity].
  rewrite lookup_insert. case_decide as Ha.
  - subst a2. rewrite Hb. simpl. rewrite lookup_insert_eq, Hb. simpl.
    rewrite Hfg. reflexivity.
  - destruct (bases s !! a2) as [b2|] eqn:E; simpl; [|reflexivity].
    rewrite lookup_insert_ne, E by congruence. reflexivity.
Qed.

Lemma has_commodity_frame (s s' : state) (a : amount_t) :
  objects s' = objects s -> pools s' = pools s ->
  has_commodity s' a = has_commodity s a.
Proof.
  intros Ho Hp. unfold has_commodity, commodity_t.parent, commodity_t.this_fields.
  rewrite Ho, Hp. reflexivity.
Qed.

Lemma commodity_frame (s s' : state) (a : amount_t) :
  objects s' = objects s -> pools s' = pools s -> default_pool s' = default_pool s ->
  commodity s' a = commodity s a.
Proof.
  intros Ho Hp Hd. unfold commodity.
  rewrite (has_commodity_frame s s' a Ho Hp), Ho, Hp, Hd. reflexivity.
Qed.

Lemma mutate_all_frame (l : list (addr * mutation)) (s s' : state) :
  mutate_all s l = Ret s' ->
  objects s' = objects s /\ pools s' = pools s /\ default_pool s' = default_pool s.
Proof.
  revert s. induction l as [|[h m] l IH]; simpl; intros s H.
  - injection H as <-. auto.
  - apply bind_ret_inv in H as (s1 & H1 & H2).
    destruct (IH _ H2) as (Ho & Hp & Hd).
    apply mutate_inv in H1 as (a & b & _ & ->). simpl in *. auto.
Qed.

Lemma mutate_all_get {A} (f : commodity_base_t.t -> A) (l : list (addr * mutation))
    (s s' : state) :
  (forall m b, f (mutation_fun m b) = f b) ->
  mutate_all s l = Ret s' ->
  forall h2, commodity_t.get f s' h2 = commodity_t.get f s h2.
Proof.
  intros Hf. revert s. induction l as [|[h m] l IH]; simpl; intros s H h2.
  - injection H as <-. reflexivity.
  - apply bind_ret_inv in H as (s1 & H1 & H2).
    rewrite (IH _ H2). rewrite mutate_update in H1.
    eapply get_after_update; [|eassumption]. intros b. apply Hf.
Qed.

(** X12: no sequence of [set_precision], [set_flags], [add_flags],
    [drop_flags], [set_name] and [set_note], through whatever handles,
    changes which commodity an amount has or whether it is null, nor the
    symbol, the mapping key, the pool or the scaling links of any
    commodity, neither as [smaller()] and [larger()] return them nor as
    the base holds them. *)
Theorem mutations_keep_identity (s s' : state) (l : list (addr * mutation)) :
  mutate_all s l = Ret s' ->
  (forall a, has_commodity s' a = has_commodity s a /\
             commodity s' a = commodity s a /\
             is_null s' a = is_null s a) /\
  (forall h, commodity_t.symbol s' h = commodity_t.symbol s h /\
             commodity_t.mapping_key s' h = commodity_t.mapping_key s h /\
             commodity_t.parent s' h = commodity_t.parent s h /\
             commodity_t.smaller s' h = commodity_t.smaller s h /\
             commodity_t.larger s' h = commodity_t.larger s h /\
             commodity_t.get commodity_base_t.smaller s' h
             = commodity_t.get commodity_base_t.smaller s h /\
             commodity_t.get commodity_base_t.larger s' h
             = commodity_t.get commodity_base_t.larger s h).
Proof.
  intros H. destruct (mutate_all_frame _ _ _ H) as (Ho & Hp & Hd).
  split.
  - intros a. pose proof (has_commodity_frame s s' a Ho Hp) as Hh.
    split; [assumption|]. split; [apply commodity_frame; assumption|].
    unfold is_null. rewrite Hh. reflexivity.
  - intros h.
    assert (Hsym : commodity_t.base_symbol s' h = commodity_t.base_symbol s h).
    { apply (mutate_all_get commodity_base_t.symbol l); [|assumption].
      intros [] b; reflexivity. }
    split; [unfold commodity_t.symbol, commodity_t.this_fields;
            rewrite Ho, Hsym; reflexivity|].
    split; [unfold commodity_t.mapping_key, commodity_t.this_fields;
            rewrite Ho, Hsym; reflexivity|].
    split; [unfold commodity_t.parent, commodity_t.this_fields;
            rewrite Ho, Hp; reflexivity|].
    assert (Hsm : commodity_t.get commodity_base_t.smaller s' h
                  = commodity_t.get commodity_base_t.smaller s h).
    { apply (mutate_all_get commodity_base_t.smaller l); [|assumption].
      intros [] b; reflexivity. }
    assert (Hlg : commodity_t.get commodity_base_t.larger s' h
                  = commodity_t.get commodity_base_t.larger s h).
    { apply (mutate_all_get commodity_base_t.larger l); [|assumption].
      intros [] b; reflexivity. }
    unfold commodity_t.smaller, commodity_t.larger. rewrite Hsm, Hlg.
    repeat split.
Qed.

Lemma mutations_keep_identity_witness :
  exists s',
    mutate_all sample.st [(sample.aapl_lot, SetPrecision 6%N);
                          (sample.usd, SetName (Some "dollar"%string))] = Ret s' /\
    commodity s' sample.usd5 = Ret sample.usd /\
    commodity_t.symbol s' sample.aapl_lot = Ret "AAPL"%string.
Proof.
  eexists. split; [reflexivity|].
  destruct (mutations_keep_identity sample.st _
              [(sample.aapl_lot, SetPrecision 6%N);
               (sample.usd, SetName (Some "dollar"%string))] eq_refl) as (Ha & Hh).
  destruct (Ha sample.usd5) as (_ & Hc & _).
  destruct (Hh sample.aapl_lot) as (Hs & _).
  split; [rewrite Hc | rewrite Hs]; reflexivity.
Defined.

(** X13: a mutation through one handle changes nothing of what the accessors
    show through a handle on another base. *)
Theorem mutation_frame (s s' : state) (h h2 a a2 : addr) (b b2 : commodity_base_t.t)
    (m : mutation) :
  commodity_t.base_of s h = Ret (a, b) ->
  commodity_t.base_of s h2 = Ret (a2, b2) ->
  a <> a2 ->
  mutate s h m = Ret s' ->
  commodity_t.base_of s' h2 = Ret (a2, b2) /\
  display_metadata s' h2 = display_metadata s h2.
Proof.
  intros Hab Hab2 Hne Hm.
  apply mutate_inv in Hm as (a' & b' & Hab' & ->).
  rewrite Hab in Hab'. injection Hab' as <- <-.
  assert (H2 : commodity_t.base_of (set_bases <[a := mutation_fun m b]> s) h2
               = Ret (a2, b2)) by (apply base_of_frame; congruence).
  split; [assumption|].
  rewrite (display_metadata_spec _ _ _ _ H2), (display_metadata_spec _ _ _ _ Hab2).
  reflexivity.
Qed.

Lemma mutation_frame_witness :
  exists s',
    commodity_t.set_precision sample.st sample.usd 5%N = Ret s' /\
    display_metadata s' sample.eur = display_metadata sample.st sample.eur.
Proof.
  eexists. split; [reflexivity|].
  apply (mutation_frame sample.st _ sample.usd sample.eur sample.usd sample.eur
           _ _ (SetPrecision 5%N) eq_refl eq_refl); [discriminate | reflexivity].
Defined.

(** ** Scaling links *)

Lemma same_base_base_of (s : state) (h1 h2 a : addr) (b : commodity_base_t.t) :
  same_base s h1 h2 -> commodity_t.base_of s h1 = Ret (a, b) ->
  commodity_t.base_of s h2 = Ret (a, b).
Proof.
  intros (o1 & o2 & H1 & H2 & Hb) Hab.
  apply base_of_spec in Hab as (o & Ho & Ha & Hbs).
  apply base_of_spec. exists o2. split; [assumption|]. split; [congruence | assumption].
Qed.

Lemma copy_ctor_idem (a : amount_t) : copy_ctor (copy_ctor a) = copy_ctor a.
Proof. destruct a as [[q|] c]; reflexivity. Qed.

Lemma copy_optional_assign_empty (assign : amount_t -> amount_t -> amount_t)
    (v : option amount_t) :
  copy_optional (commodity_t.optional_assign assign None v) = copy_optional v.
Proof. destruct v as [y|]; simpl; [rewrite copy_ctor_idem|]; reflexivity. Qed.

Lemma optional_assign_none (assign : amount_t -> amount_t -> amount_t)
    (old : option amount_t) :
  commodity_t.optional_assign assign old None = None.
Proof. destruct old; reflexivity. Qed.

(** X14: [set_smaller] and [set_larger] through one handle show through
    every handle on the same base, whatever [amount_t::operator=] does:
    [smaller()] and [larger()] return a copy of what the assignment of
    the argument to the link left there, that is nothing when the
    argument is empty and a copy of the argument when the link was
    empty; each setter leaves the other link and the display metadata as
    they were. *)
Theorem scaling_links_shared (assign : amount_t -> amount_t -> amount_t)
    (s : state) (h1 h2 : addr) (v : option amount_t) :
  same_base s h1 h2 ->
  (forall s', commodity_t.set_smaller assign s h1 v = Ret s' ->
     exists old,
       commodity_t.get commodity_base_t.smaller s h2 = Ret old /\
       commodity_t.smaller s' h2
       = Ret (copy_optional (commodity_t.optional_assign assign old v)) /\
       (v = None -> commodity_t.smaller s' h2 = Ret None) /\
       (old = None -> commodity_t.smaller s' h2 = Ret (copy_optional v)) /\
       commodity_t.larger s' h2 = commodity_t.larger s h2 /\
       display_metadata s' h2 = display_metadata s h2) /\
  (forall s', commodity_t.set_larger assign s h1 v = Ret s' ->
     exists old,
       commodity_t.get commodity_base_t.larger s h2 = Ret old /\
       commodity_t.larger s' h2
       = Ret (copy_optional (commodity_t.optional_assign assign old v)) /\
       (v = None -> commodity_t.larger s' h2 = Ret None) /\
       (old = None -> commodity_t.larger s' h2 = Ret (copy_optional v)) /\
       commodity_t.smaller s' h2 = commodity_t.smaller s h2 /\
       display_metadata s' h2 = display_metadata s h2).
Proof.
  intros Hsame. split; intros s' H;
    (apply update_inv in H as (a & b & Hab & ->);
     pose proof (same_base_base_of _ _ _ _ _ Hsame Hab) as Hab2;
     match goal with
     | |- context [set_bases <[a := ?x]> s] =>
         pose proof (base_of_written s h1 h2 a b x Hab Hsame) as Hw
     end;
     unfold commodity_t.smaller, commodity_t.larger;
     rewrite !(get_intro _ _ _ _ _ Hw), !(get_intro _ _ _ _ _ Hab2),
       (display_metadata_spec _ _ _ _ Hw), (display_metadata_spec _ _ _ _ Hab2);
     eexists; split; [reflexivity|]; simpl;
     split; [reflexivity|];
     split; [intros ->; rewrite optional_assign_none; reflexivity|];
     split; [intros ->; rewrite copy_optional_assign_empty; reflexivity|];
     split; reflexivity).
Qed.

Lemma scaling_links_shared_witness :
  exists s',
    commodity_t.set_smaller (fun _ y => _copy y) sample.st sample.aapl_lot
                            (Some sample.five) = Ret s' /\
    commodity_t.smaller s' sample.aapl = Ret (Some sample.five) /\
    commodity_t.larger s' sample.aapl = Ret None.
Proof.
  eexists. split; [reflexivity|].
  assert (Hs : same_base sample.st sample.aapl_lot sample.aapl).
  { eexists _, _. repeat split. }
  destruct (proj1 (scaling_links_shared (fun _ y => _copy y) sample.st
                     sample.aapl_lot sample.aapl (Some sample.five) Hs) _ eq_refl)
    as (old & Hold & _ & _ & H1 & H2 & _).
  injection Hold as <-.
  split; [exact (H1 eq_refl) | rewrite H2; reflexivity].
Defined.

(** ** The comparison templates *)

(** X15: whenever [compare] returns, exactly one of the templates
    [operator<], [operator==] and [operator>] is true; when it throws,
    each of them throws the same error; and [operator==] between amounts
    is true only if the template [operator==] is. *)
Theorem comparison_trichotomy
    (annotated_eq : state -> addr -> addr -> res bool)
    (compare : state -> amount_t -> amount_t -> res Z)
    (s : state) (a b : amount_t) :
  (forall r, compare s a b = Ret r ->
     exists l e g,
       operator_lt compare s a b = Ret l /\
       operator_eq_T compare s a b = Ret e /\
       operator_gt compare s a b = Ret g /\
       ((l = true /\ e = false /\ g = false) \/
        (l = false /\ e = true /\ g = false) \/
        (l = false /\ e = false /\ g = true))) /\
  (forall err, compare s a b = Throw err ->
     operator_lt compare s a b = Throw err /\
     operator_eq_T compare s a b = Throw err /\
     operator_gt compare s a b = Throw err) /\
  (operator_eq annotated_eq compare s a b = Ret true ->
   operator_eq_T compare s a b = Ret true /\
   operator_lt compare s a b = Ret false /\
   operator_gt compare s a b = Ret false).
Proof.
  unfold operator_lt, operator_eq_T, operator_gt, operator_eq.
  split; [|split].
  - intros r ->. simpl. exists (r <? 0), (r =? 0), (r >? 0).
    split; [reflexivity|]. split; [reflexivity|]. split; [reflexivity|].
    rewrite Z.gtb_ltb.
    destruct (Z.ltb_spec r 0), (Z.eqb_spec r 0), (Z.ltb_spec 0 r);
      try lia; auto.
  - intros err ->. repeat split.
  - destruct (commodities_differ annotated_eq s a b) as [[]| |]; simpl;
      try discriminate.
    destruct (compare s a b) as [r| |]; simpl; try discriminate.
    intros [= H]. apply Z.eqb_eq in H. subst r. repeat split.
Qed.

Lemma comparison_trichotomy_witness :
  operator_lt (compare_spec sample.annotated_eq) sample.st sample.usd0 sample.usd5
  = Ret true /\
  operator_gt (compare_spec sample.annotated_eq) sample.st sample.usd5 sample.eur1
  = Throw IncompatibleCommodities.
Proof.
  destruct (comparison_trichotomy sample.annotated_eq
              (compare_spec sample.annotated_eq) sample.st sample.usd5 sample.eur1)
    as (_ & H & _).
  destruct (H IncompatibleCommodities eq_refl) as (_ & _ & Hg).
  split; [reflexivity | exact Hg].
Defined.

(** ** [round()] and the display precision *)

(** X16: after [set_precision(n)] through any handle on the base of an
    amount's commodity, [round()] of the amount is [round(n)]. *)
Theorem round_follows_precision (s s' : state) (a : amount_t) (c h : addr) (n : N) :
  has_commodity s a = Ret true -> commodity s a = Ret c ->
  same_base s h c ->
  commodity_t.set_precision s h n = Ret s' ->
  round s' a = Ret (round_prec a n).
Proof.
  intros Hh Hc Hsame Hset.
  apply update_inv in Hset as (ba & b & Hab & ->).
  unfold round.
  set (s1 := set_bases <[ba := commodity_base_t.with_precision n b]> s).
  rewrite (has_commodity_frame s s1 a eq_refl eq_refl), Hh. simpl.
  rewrite (commodity_frame s s1 a eq_refl eq_refl eq_refl), Hc. simpl.
  unfold commodity_t.precision. subst s1.
  rewrite (get_intro _ _ c ba _ (base_of_written s h c ba b _ Hab Hsame)).
  reflexivity.
Qed.

Lemma round_follows_precision_witness :
  exists s',
    commodity_t.set_precision sample.st sample.usd 0%N = Ret s' /\
    round s' sample.usd100_005 = Ret (mk_amount (Some (mk_bigint 100 0)) (Some sample.usd)).
Proof.
  eexists. split; [reflexivity|].
  assert (Hs : same_base sample.st sample.usd sample.usd).
  { eexists _, _. repeat split. }
  exact (round_follows_precision sample.st _ sample.usd100_005 sample.usd sample.usd
           0%N eq_refl eq_refl Hs eq_refl).
Defined.

(** ** Entry points that need the default pool *)

(** X17: [parse(str, flags)] and [exact] reach the stream parser only through
    a live default pool: without one they fail before any parsing; with
    one, [exact(value)] is that pool's
    [parse_amount(value, AMOUNT_PARSE_NO_MIGRATE)]. *)
Theorem exact_needs_default_pool
    (parse_stream : state -> amount_t -> addr -> string -> Z -> res (amount_t * state))
    (s : state) (value : string) :
  (ref_of (pools s) (default_pool s) = Fault ->
   exact parse_stream s value = Fault /\
   forall this flags, parse parse_stream s this value flags = Fault) /\
  (forall p, ref_of (pools s) (default_pool s) = Ret p ->
     exact parse_stream s value
     = parse_amount parse_stream s p value AMOUNT_PARSE_NO_MIGRATE /\
     forall this flags, parse parse_stream s this value flags
                        = parse_in parse_stream s this p value flags) /\
  (ref_of (pools s) (default_pool s) = Fault \/
   exists p, ref_of (pools s) (default_pool s) = Ret p).
Proof.
  unfold exact, parse, parse_amount. split; [|split].
  - intros ->. split; reflexivity.
  - intros p ->. split; reflexivity.
  - unfold ref_of. destruct (default_pool s) as [p|]; [|left; reflexivity].
    destruct (pools s !! p); [right; eauto | left; reflexivity].
Qed.

Lemma exact_needs_default_pool_witness :
  exact (fun s this _ _ _ => Ret (this, s)) sample.st "$100.005"
  = parse_amount (fun s this _ _ _ => Ret (this, s)) sample.st sample.pool
                 "$100.005" AMOUNT_PARSE_NO_MIGRATE.
Proof.
  exact (proj1 (proj1 (proj2 (exact_needs_default_pool
                                (fun s this _ _ _ => Ret (this, s)) sample.st
                                "$100.005")) sample.pool eq_refl)).
Defined.

(** ** Equality of amounts with and without a commodity *)

(** X18: with a plain null commodity in the default pool: between two amounts
    without a commodity [operator==] is the test [compare(amt) == 0];
    between an amount with a plain commodity on another base and an
    amount without a commodity it is [false] in both orders, and
    [compare] is not called. *)
Theorem bare_and_commoditized_equality
    (annotated_eq : state -> addr -> addr -> res bool)
    (compare : state -> amount_t -> amount_t -> res Z)
    (s : state) (a b : amount_t) (n : addr) (fn : commodity_fields) :
  default_null s n -> objects s !! n = Some (Plain fn) -> annotated fn = false ->
  has_commodity s b = Ret false ->
  (has_commodity s a = Ret false ->
   operator_eq annotated_eq compare s a b = operator_eq_T compare s a b) /\
  (forall c fc,
      has_commodity s a = Ret true -> commodity_ a = Some c ->
      objects s !! c = Some (Plain fc) -> annotated fc = false ->
      base fc <> base fn ->
      operator_eq annotated_eq compare s a b = Ret false /\
      operator_eq annotated_eq compare s b a = Ret false).
Proof.
  intros Hd Hn Hfn Hb.
  pose proof (commodity_default s b n Hd Hb) as Hcb.
  split.
  - intros Ha. pose proof (commodity_default s a n Hd Ha) as Hca.
    unfold operator_eq, operator_eq_T, commodities_differ, commodity_t.operator_ne.
    rewrite Hca, Hcb. simpl.
    rewrite (plain_operator_eq annotated_eq s n n fn fn) by assumption.
    rewrite bool_decide_eq_true_2 by reflexivity. reflexivity.
  - intros c fc Ha Hc Hoc Hfc Hne.
    destruct (commodity_present s a Ha) as (c' & Hc' & Hca).
    assert (c' = c) by congruence. subst c'.
    unfold operator_eq, commodities_differ, commodity_t.operator_ne.
    rewrite Hca, Hcb. simpl.
    rewrite (plain_operator_eq annotated_eq s c n fc fn),
      (plain_operator_eq annotated_eq s n c fn fc) by assumption.
    rewrite !bool_decide_eq_false_2 by congruence. split; reflexivity.
Qed.

Lemma bare_and_commoditized_equality_witness :
  operator_eq sample.annotated_eq (fun _ _ _ => Ret 0) sample.st sample.usd0
              (amount_of_long 0) = Ret false /\
  operator_eq_T (fun _ _ _ => Ret 0) sample.st sample.usd0 (amount_of_long 0)
  = Ret true.
Proof.
  destruct (bare_and_commoditized_equality sample.annotated_eq (fun _ _ _ => Ret 0)
              sample.st sample.usd0 (amount_of_long 0) sample.null
              (mk_commodity (Some sample.null) (Some sample.pool) (Some 0%N)
                            None None false)
              sample_default_null eq_refl eq_refl eq_refl) as (_ & H).
  destruct (H sample.usd _ eq_refl eq_refl eq_refl eq_refl) as (H1 & _);
    [discriminate|].
  split; [exact H1 | reflexivity].
Defined.

(** ** Amounts in an annotated commodity *)

(** X19: an amount pointed at a freshly built annotated commodity has that
    commodity, and [round()] rounds it to the display precision read
    through the commodity the annotated one was built from. *)
Theorem annotated_amount_rounds_like_referent
    (s s1 : state) (a p pp : addr) (pool : commodity_pool_t.t)
    (d : annotation_t.t) (x : amount_t) (n : N) :
  objects s !! a = None ->
  annotated_commodity_t.new s a (Some p) d = Ret s1 ->
  commodity_t.parent s p = Ret pp -> pools s !! pp = Some pool ->
  commodity_pool_t.null_commodity pool <> Some a ->
  commodity_t.precision s p = Ret n ->
  has_commodity s1 (set_commodity x a) = Ret true /\
  commodity s1 (set_commodity x a) = Ret a /\
  round s1 (set_commodity x a) = Ret (round_prec (set_commodity x a) n).
Proof.
  intros Hfresh Hnew Hpar Hpool Hnull Hprec.
  destruct (new_annotated_inv _ _ _ _ _ Hfresh Hnew)
    as (y & o & Hya & Hop & _ & Hbase & Hpy & _).
  assert (Hframe : bases s1 = bases s /\ pools s1 = pools s).
  { unfold annotated_commodity_t.new in Hnew.
    apply bind_ret_inv in Hnew as (y' & _ & [= <-]). split; reflexivity. }
  destruct Hframe as (Hbs & Hps).
  assert (Hop0 : objects s !! p = Some o).
  { unfold annotated_commodity_t.new in Hnew.
    apply bind_ret_inv in Hnew as (y' & _ & [= <-]). simpl in Hop.
    rewrite lookup_insert_ne in Hop; [assumption|]. intros ->.
    apply parent_live in Hpar as [? ?]. congruence. }
  assert (Hpar1 : commodity_t.parent s1 a = Ret pp).
  { unfold commodity_t.parent, commodity_t.this_fields in *. simpl in *.
    rewrite Hya. rewrite Hop0 in Hpar. simpl in *. rewrite Hpy, Hps. assumption. }
  assert (Hpool1 : pools s1 !! pp = Some pool) by (rewrite Hps; assumption).
  destruct (has_commodity_set_true s1 x a pp pool Hpar1 Hpool1 Hnull) as (Hh & Hc).
  split; [assumption|]. split; [assumption|].
  unfold round. rewrite Hh. simpl. rewrite Hc. simpl.
  assert (Hp1 : commodity_t.precision s1 a = Ret n).
  { rewrite <- Hprec.
    unfold commodity_t.precision, commodity_t.get, commodity_t.base_of,
      commodity_t.this_fields. simpl. rewrite Hya, Hop0, Hbs. simpl.
    rewrite Hbase. reflexivity. }
  rewrite Hp1. reflexivity.
Qed.

Lemma annotated_amount_rounds_like_referent_witness :
  exists s1,
    annotated_commodity_t.new sample.st 9%positive (Some sample.usd)
                              annotation_t.ctor0 = Ret s1 /\
    round s1 (set_commodity sample.usd100_005 9%positive)
    = Ret (mk_amount (Some (mk_bigint 10000 2)) (Some 9%positive)).
Proof.
  eexists. split; [reflexivity|].
  refine (proj2 (proj2 (annotated_amount_rounds_like_referent sample.st _
                          9%positive sample.usd sample.pool
                          (commodity_pool_t.mk
                             [sample.null; sample.usd; sample.eur; sample.aapl;
                              sample.aapl_lot] (Some sample.null) None)
                          annotation_t.ctor0 sample.usd100_005 2%N
                          eq_refl eq_refl eq_refl eq_refl _ eq_refl))).
  discriminate.
Defined.
